(** * gobin: annotating a go.mod manifest (pkg/gobin/mod.go)

    A shallow embedding of [ModDirectPackage], [ModHasMeta] and
    [AddMetaToMod].  Go strings are [string]s and byte slices lists of bytes; the parse
    tree of [golang.org/x/mod/modfile] is a record whose [*Line] pointers
    are indices into the store of lines; the file system and the open
    file handle are explicit state; a panic is an outcome of its own. *)

From Stdlib Require Import Ascii String List Arith Lia Bool.
From stdpp Require Import base option list strings gmap.

Local Open Scope string_scope.
Local Open Scope list_scope.

(** ** Go strings as byte sequences *)

Abbreviation bytes := (list ascii).

Definition of_string (s : string) : bytes := list_ascii_of_string s.
Definition to_string (b : bytes) : string := string_of_list_ascii b.

(** [s[n:]] for [n] within the string. *)
Definition slice_from (n : nat) (s : string) : string :=
  to_string (drop n (of_string s)).

(** ** Splitting and joining *)

(** strings.Split(s, sep) for a one-byte separator: the maximal runs
    between separators.  A string with [n] separators has [n + 1] fields,
    some of them empty. *)
Fixpoint Split (sep : ascii) (s : bytes) : list bytes :=
  match s with
  | [] => [[]]
  | c :: s' =>
      if decide (c = sep) then [] :: Split sep s'
      else match Split sep s' with
           | e :: es => (c :: e) :: es
           | [] => [[c]]
           end
  end.

(** strings.Join(fields, sep) *)
Fixpoint Unsplit (sep : ascii) (es : list bytes) : bytes :=
  match es with
  | [] => []
  | [e] => e
  | e :: es' => e ++ sep :: Unsplit sep es'
  end.

(** ** Path elements *)

Definition Separator : ascii := "/"%char.
Definition dot : ascii := "."%char.

(** The elements of a path, empty ones included. *)
Definition elements (s : bytes) : list bytes := Split Separator s.

(** strings.Join(elems, "/") *)
Definition join_path (es : list bytes) : bytes := Unsplit Separator es.

(** The first element of [s] and what follows it, separator included:
    the inner scanning loops [for bi < bl && base[bi] != Separator]. *)
Fixpoint scan (s : bytes) : bytes * bytes :=
  match s with
  | [] => ([], [])
  | c :: s' =>
      if decide (c = Separator) then ([], s)
      else let '(e, r) := scan s' in (c :: e, r)
  end.

(** ** package path: Clean and Join *)

Module path.

(** [out.w--; for out.w > dotdot && out.index(out.w) != '/' { out.w-- }]
    on the reversed buffer: one byte goes, and bytes keep going while
    the write index is above [dotdot] and the byte just dropped is not a
    separator. *)
Fixpoint backtrack_rev (rbuf : bytes) (dotdot : nat) : bytes :=
  match rbuf with
  | [] => []
  | c :: r =>
      if decide (dotdot < length r) then
        if decide (c = Separator) then r else backtrack_rev r dotdot
      else r
  end.

Definition backtrack (out : bytes) (dotdot : nat) : bytes :=
  reverse (backtrack_rev (reverse out) dotdot).

(** One turn of Clean's loop on the path element [e]; the state is the
    output buffer [out] and the index [dotdot] below which [..] cannot
    backtrack. *)
Definition Clean_elem (rooted : bool) (st : bytes * nat) (e : bytes)
  : bytes * nat :=
  let '(out, dotdot) := st in
  if decide (e = []) then st                       (* empty path element *)
  else if decide (e = [dot]) then st               (* . element *)
  else if decide (e = [dot; dot]) then             (* .. element *)
    if decide (dotdot < length out) then (backtrack out dotdot, dotdot)
    else if rooted then st
    else
      let out' := (if decide (0 < length out) then out ++ [Separator] else out)
                    ++ [dot; dot] in
      (out', length out')
  else                                             (* real path element *)
    let out1 :=
      if (rooted && negb (Nat.eqb (length out) 1))
         || (negb rooted && negb (Nat.eqb (length out) 0))
      then out ++ [Separator] else out in
    (out1 ++ e, dotdot).

Definition Clean_bytes (p : bytes) : bytes :=
  match p with
  | [] => [dot]
  | c :: rest =>
      let rooted := bool_decide (c = Separator) in
      let st0 : bytes * nat := if rooted then ([Separator], 1) else ([], 0) in
      let out := fst (fold_left (Clean_elem rooted)
                                (elements (if rooted then rest else p)) st0) in
      if decide (out = []) then [dot] else out
  end.

Definition Clean (p : string) : string := to_string (Clean_bytes (of_string p)).

(** Join: the elements from the first non-empty one on, joined by
    slashes and cleaned; the empty string when all are empty. *)
Fixpoint Join_bytes (elem : list bytes) : bytes :=
  match elem with
  | [] => []
  | e :: rest =>
      if decide (e = []) then Join_bytes rest else Clean_bytes (join_path elem)
  end.

Definition Join (elem : list string) : string :=
  to_string (Join_bytes (of_string <$> elem)).

End path.

(** ** Errors and outcomes *)

(** A Go [error] value: one made from a message ([errors.New],
    [errors.Errorf], or what the operating system and the libraries
    report), or [github.com/pkg/errors]' [Wrap] around a cause. *)
Inductive error : Type :=
| New (msg : string)
| Wrap (cause : error) (msg : string).

(** [err.Error()] *)
Fixpoint Error (e : error) : string :=
  match e with
  | New msg => msg
  | Wrap cause msg => msg +:+ ": " +:+ Error cause
  end.

(** [errors.Cause(err)]: the innermost error of a chain of wraps. *)
Fixpoint Cause (e : error) : error :=
  match e with
  | New msg => New msg
  | Wrap cause _ => Cause cause
  end.

Global Instance error_eq_dec : EqDecision error.
Proof. solve_decision. Defined.

(** A call that returns [(value, error)] with the zero value on error. *)
Inductive result (A : Type) : Type :=
| Ok (a : A)
| Failed (err : error).
Arguments Ok {A} a.
Arguments Failed {A} err.

(** What a Go function does: it returns, or it panics. *)
Inductive go (A : Type) : Type :=
| Return (a : A)
| Panic (reason : string).
Arguments Return {A} a.
Arguments Panic {A} reason.

Definition nil_dereference : string :=
  "runtime error: invalid memory address or nil pointer dereference".
Definition slice_out_of_range : string :=
  "runtime error: slice bounds out of range".

(** ** package path/filepath: Rel, as built for a POSIX system *)

Module filepath.

(** The loop that positions [base[b0:bi]] and [targ[t0:ti]] at the first
    differing elements.  The arguments are [base[b0:]] and [targ[t0:]]
    at the head of the loop (where [bi = b0] and [ti = t0]); the result
    is [base[b0:bi]], [base[b0:]] and [targ[t0:]] on exit.  Each turn
    shortens [base], so [length base] turns are enough. *)
Fixpoint Rel_loop (fuel : nat) (base targ : bytes) : bytes * bytes * bytes :=
  match fuel with
  | 0 => ([], base, targ)
  | S fuel' =>
      if decide (base = [] ∨ targ = []) then ([], base, targ)
      else
        let '(be, brest) := scan base in
        let '(te, trest) := scan targ in
        if decide (te = be) then Rel_loop fuel' (tail brest) (tail trest)
        else (be, base, targ)
  end.

(** strings.Count(s, "/") *)
Definition Count_sep (s : bytes) : nat :=
  length (filter (λ c, c = Separator) s).

(** The buffer filled when base elements are left: [..], then [/..] once
    per separator left in base. *)
Fixpoint dotdots (seps : nat) : bytes :=
  match seps with
  | 0 => [dot; dot]
  | S n => [dot; dot] ++ Separator :: dotdots n
  end.

Definition Rel_bytes (basepath targpath : bytes) : option bytes :=
  let base := path.Clean_bytes basepath in
  let targ := path.Clean_bytes targpath in
  if decide (targ = base) then Some [dot]
  else
    let base := if decide (base = [dot]) then [] else base in
    let baseSlashed := bool_decide (head base = Some Separator) in
    let targSlashed := bool_decide (head targ = Some Separator) in
    if decide (baseSlashed ≠ targSlashed) then None
    else
      let '(be, b0, t0) := Rel_loop (length base) base targ in
      if decide (be = [dot; dot]) then None
      else if decide (b0 ≠ []) then
        (* Base elements left. Must go up before going down. *)
        Some (dotdots (Count_sep b0)
                ++ (if decide (t0 ≠ []) then Separator :: t0 else []))
      else Some t0.

Definition Rel (basepath targpath : string) : result string :=
  match Rel_bytes (of_string basepath) (of_string targpath) with
  | Some r => Ok (to_string r)
  | None =>
      Failed (New ("Rel: can't make " +:+ targpath +:+ " relative to " +:+ basepath))
  end.

End filepath.

(** ** package modfile: the parse tree the annotator works on *)

Module modfile.

(** A comment token ([// ...]) and whether it ends a line. *)
Module Comment.
Record t : Type := mk { Token : string; Suffix : bool }.
End Comment.

(** A line of the manifest: its tokens and the comments that end it
    (the [Suffix] slot of the embedded [Comments]). *)
Module Line.
Record t : Type := mk { Token : list string; Suffix : list Comment.t }.
End Line.

(** module.Version *)
Module Version.
Record t : Type := mk { Path : string; Version : string }.
End Version.

(** A [*Line]: the index of the line in the store [File.Syntax]. *)
Abbreviation ptr := nat (only parsing).

Module Module_.
Record t : Type := mk { Mod : Version.t; Syntax : ptr }.
End Module_.

Module Require_.
Record t : Type := mk { Mod : Version.t; Indirect : bool; Syntax : ptr }.
End Require_.

(** [Module_] is [None] for the nil pointer of a manifest without a
    module statement.  [Syntax] is the store of lines, in file order;
    the module statement and the requirements point into it, so a
    comment appended through a requirement is seen by [Format]. *)
Module File.
Record t : Type := mk {
  Module_ : option Module_.t;
  Require_ : list Require_.t;
  Syntax : list Line.t
}.
End File.

End modfile.
Import modfile.

Global Instance Comment_eq_dec : EqDecision Comment.t.
Proof. solve_decision. Defined.
Global Instance Line_eq_dec : EqDecision Line.t.
Proof. solve_decision. Defined.
Global Instance Version_eq_dec : EqDecision Version.t.
Proof. solve_decision. Defined.
Global Instance Module_eq_dec : EqDecision Module_.t.
Proof. solve_decision. Defined.
Global Instance Require_eq_dec : EqDecision Require_.t.
Proof. solve_decision. Defined.
Global Instance File_eq_dec : EqDecision File.t.
Proof. solve_decision. Defined.

(** The collaborator: [modfile.Parse(file, data, nil)] and
    [m.Format()]. *)
Class Modfile : Type := {
  Parse : string → bytes → result File.t;
  Format : File.t → result bytes
}.

(** [x.Suffix = append(x.Suffix, c)] through the pointer [p]; [None] when
    [p] points at no line. *)
Definition append_Suffix (m : File.t) (p : ptr) (c : Comment.t) : option File.t :=
  match File.Syntax m !! p with
  | None => None
  | Some ln =>
      let ln' := Line.mk (Line.Token ln) (Line.Suffix ln ++ [c]) in
      Some (File.mk (File.Module_ m) (File.Require_ m) (<[p := ln']> (File.Syntax m)))
  end.

(** ** package os: the file system and an open file *)

Module os.

(** An open file: its name, its contents and the offset of the handle. *)
Record File : Type := mkFile { name : string; data : bytes; offset : nat }.

(** Which calls fail, and with what: what the operating system decides.
    A failed [Write] has written the first [n] bytes it was given. *)
Record faults : Type := mkFaults {
  fail_OpenFile : option error;
  fail_ReadAll : option error;
  fail_Truncate : option error;
  fail_Seek : option error;
  fail_Write : option (nat * error);
  fail_Close : option error
}.

Definition no_faults : faults := mkFaults None None None None None None.

(** The same faults, with [cerr] for what [Close] reports. *)
Definition closing (K : faults) (cerr : option error) : faults :=
  mkFaults (fail_OpenFile K) (fail_ReadAll K) (fail_Truncate K) (fail_Seek K)
           (fail_Write K) cerr.

Definition not_exist (name : string) : error :=
  New ("open " +:+ name +:+ ": no such file or directory").

(** os.OpenFile(name, os.O_RDWR, os.ModePerm): no O_CREATE, so a missing
    file is an error. *)
Definition OpenFile (K : faults) (fs : gmap string bytes) (name : string)
  : result File :=
  match fail_OpenFile K with
  | Some err => Failed err
  | None =>
      match fs !! name with
      | None => Failed (not_exist name)
      | Some b => Ok (mkFile name b 0)
      end
  end.

(** ioutil.ReadAll(f): everything from the offset to the end. *)
Definition ReadAll (K : faults) (f : File) : File * result bytes :=
  match fail_ReadAll K with
  | Some err => (f, Failed err)
  | None => (mkFile (name f) (data f) (length (data f)), Ok (drop (offset f) (data f)))
  end.

Definition zero : ascii := Ascii.zero.

(** f.Truncate(size): the offset stays where it is. *)
Definition Truncate (K : faults) (f : File) (size : nat) : File * option error :=
  match fail_Truncate K with
  | Some err => (f, Some err)
  | None =>
      (mkFile (name f) (take size (data f ++ replicate (size - length (data f)) zero))
              (offset f), None)
  end.

(** f.Seek(off, 0) *)
Definition Seek (K : faults) (f : File) (off : nat) : File * option error :=
  match fail_Seek K with
  | Some err => (f, Some err)
  | None => (mkFile (name f) (data f) off, None)
  end.

(** [b] written at the offset, over what is there, after a gap of zero
    bytes when the offset is past the end. *)
Definition write_at (d : bytes) (off : nat) (b : bytes) : bytes :=
  take off (d ++ replicate (off - length d) zero) ++ b ++ drop (off + length b) d.

(** f.Write(b) *)
Definition Write (K : faults) (f : File) (b : bytes) : File * option error :=
  match fail_Write K with
  | Some (n, err) =>
      let b' := take n b in
      (mkFile (name f) (write_at (data f) (offset f) b') (offset f + length b'), Some err)
  | None => (mkFile (name f) (write_at (data f) (offset f) b) (offset f + length b), None)
  end.

(** f.Close() *)
Definition Close (K : faults) (f : File) : option error := fail_Close K.

(** ioutil.ReadFile(name) *)
Definition ReadFile (fs : gmap string bytes) (name : string) : result bytes :=
  match fs !! name with
  | None => Failed (not_exist name)
  | Some b => Ok b
  end.

End os.

(** An [io.Reader] as what [ioutil.ReadAll] gets out of it. *)
Definition Reader : Type := result bytes.

(** bytes.NewReader(b) *)
Definition NewReader (b : bytes) : Reader := Ok b.

(** ** The annotator (pkg/gobin/mod.go) *)

Definition metaComment : string :=
  "// Auto generated by https://github.com/bwplotka/gobin. DO NOT EDIT".

Section Annotator.

Context {M : Modfile}.

Definition readAllFileOrReader (fs : gmap string bytes) (modFile : string)
    (r : option Reader) : result bytes :=
  match r with
  | Some rd => rd
  | None => os.ReadFile fs modFile
  end.

(** [r.Syntax.Suffix[0].Token[3:]] joined to the module path.  The slice
    expression panics on a token of fewer than three bytes. *)
Definition suffixed (pkg : string) (suffix : list Comment.t) : go (string * option error) :=
  match suffix with
  | [] => Return (pkg, None)
  | c :: _ =>
      if decide (String.length (Comment.Token c) < 3) then Panic slice_out_of_range
      else Return (path.Join [pkg; slice_from 3 (Comment.Token c)], None)
  end.

(** The loop of ModDirectPackage over [m.Require]. *)
Fixpoint ModDirectPackage_range (lines : list Line.t) (rs : list Require_.t)
  : go (string * option error) :=
  match rs with
  | [] => Return ("", None)
  | r :: rs' =>
      if Require_.Indirect r then ModDirectPackage_range lines rs'
      else
        match lines !! Require_.Syntax r with
        | None => Panic nil_dereference
        | Some ln => suffixed (Version.Path (Require_.Mod r)) (Line.Suffix ln)
        end
  end.

Definition ModDirectPackage (fs : gmap string bytes) (modFile : string)
    (r : option Reader) : go (string * option error) :=
  match readAllFileOrReader fs modFile r with
  | Failed err => Return ("", Some err)
  | Ok b =>
      match Parse modFile b with
      | Failed err => Return ("", Some err)
      | Ok m => ModDirectPackage_range (File.Syntax m) (File.Require_ m)
      end
  end.

(** The loop of ModHasMeta over the module line's suffix comments. *)
Fixpoint ModHasMeta_range (suffix : list Comment.t) : bool :=
  match suffix with
  | [] => false
  | c :: rest =>
      if decide (Comment.Token c = metaComment) then true
      else ModHasMeta_range rest
  end.

Definition ModHasMeta (fs : gmap string bytes) (modFile : string)
    (r : option Reader) : go (bool * option error) :=
  match readAllFileOrReader fs modFile r with
  | Failed err => Return (false, Some err)
  | Ok b =>
      match Parse modFile b with
      | Failed err => Return (false, Some (Wrap err "failed to parse"))
      | Ok m =>
          match File.Module_ m with
          | None => Panic nil_dereference
          | Some md =>
              match File.Syntax m !! Module_.Syntax md with
              | None => Panic nil_dereference
              | Some ln => Return (ModHasMeta_range (Line.Suffix ln), None)
              end
          end
      end
  end.

(** "Add sub package info if needed": the tree after the [if] of the loop
    body, or the error of [filepath.Rel]. *)
Definition add_subpackage (m : File.t) (r : Require_.t) (pkg : string)
  : go (result File.t) :=
  let p := Version.Path (Require_.Mod r) in
  if decide (p ≠ pkg) then
    match filepath.Rel p pkg with
    | Failed err => Return (Failed err)
    | Ok subPkg =>
        match append_Suffix m (Require_.Syntax r) (Comment.mk ("// " +:+ subPkg) true) with
        | None => Panic nil_dereference
        | Some m' => Return (Ok m')
        end
    end
  else Return (Ok m).

(** "Save & Flush". *)
Definition flush (K : os.faults) (f : os.File) (m : File.t)
  : os.File * go (option error) :=
  match Format m with
  | Failed err => (f, Return (Some err))
  | Ok newB =>
      match os.Truncate K f 0 with
      | (f1, Some err) => (f1, Return (Some (Wrap err "truncate")))
      | (f1, None) =>
          match os.Seek K f1 0 with
          | (f2, Some err) => (f2, Return (Some (Wrap err "seek")))
          | (f2, None) =>
              let '(f3, err) := os.Write K f2 newB in (f3, Return err)
          end
      end
  end.

(** The loop of AddMetaToMod over [m.Require]: the first requirement
    that is not indirect is handled and the function returns. *)
Fixpoint AddMetaToMod_range (K : os.faults) (f : os.File) (modFile pkg : string)
    (m : File.t) (rs : list Require_.t) : os.File * go (option error) :=
  match rs with
  | [] => (f, Return (Some (New ("empty module found in " +:+ modFile))))
  | r :: rs' =>
      if Require_.Indirect r then AddMetaToMod_range K f modFile pkg m rs'
      else
        match add_subpackage m r pkg with
        | Panic p => (f, Panic p)
        | Return (Failed err) => (f, Return (Some err))
        | Return (Ok m') => flush K f m'
        end
  end.

(** AddMetaToMod between [os.OpenFile] and the deferred [f.Close]. *)
Definition AddMetaToMod_opened (K : os.faults) (fs : gmap string bytes)
    (f : os.File) (modFile pkg : string) : os.File * go (option error) :=
  match os.ReadAll K f with
  | (f1, Failed err) => (f1, Return (Some err))
  | (f1, Ok b) =>
      match ModHasMeta fs modFile (Some (NewReader b)) with
      | Panic p => (f1, Panic p)
      | Return (_, Some err) => (f1, Return (Some err))
      | Return (true, None) =>
          (f1, Return (Some (New ("module " +:+ modFile +:+ " has already all meta"))))
      | Return (false, None) =>
          match Parse modFile b with
          | Failed err => (f1, Return (Some (Wrap err "failed to parse")))
          | Ok m =>
              (* First meta. *)
              match File.Module_ m with
              | None => (f1, Panic nil_dereference)
              | Some md =>
                  match append_Suffix m (Module_.Syntax md) (Comment.mk metaComment true) with
                  | None => (f1, Panic nil_dereference)
                  | Some m1 => AddMetaToMod_range K f1 modFile pkg m1 (File.Require_ m1)
                  end
              end
          end
      end
  end.

(** The deferred function: the error of [f.Close] becomes the result of
    a call that had none, and is wrapped onto the error of one that had.
    A panic goes on after the file is closed. *)
Definition deferred_Close (cerr : option error) (r : go (option error))
  : go (option error) :=
  match r with
  | Panic p => Panic p
  | Return err =>
      match cerr with
      | None => Return err
      | Some ce =>
          match err with
          | Some e => Return (Some (Wrap e ("additionally error on close: " +:+ Error ce)))
          | None => Return (Some ce)
          end
      end
  end.

(** The file system after the call, and what the call did. *)
Definition AddMetaToMod (K : os.faults) (fs : gmap string bytes)
    (modFile pkg : string) : gmap string bytes * go (option error) :=
  match os.OpenFile K fs modFile with
  | Failed err => (fs, Return (Some err))
  | Ok f =>
      let '(f', r) := AddMetaToMod_opened K fs f modFile pkg in
      (<[modFile := os.data f']> fs, deferred_Close (os.Close K f') r)
  end.

End Annotator.

(** ** A parser and a formatter for one-line statements

    The fragment of the go.mod grammar with one statement per line
    ([module p], [go v], [require p v]), each with an optional comment at
    the end of its line; blank lines and lines holding only a comment
    carry no statement.  It instantiates [Modfile] so that the annotator
    runs on concrete manifests. *)

Module MiniMod.

Definition LF : ascii := "010"%char.
Definition space : ascii := " "%char.
Definition tab : ascii := "009"%char.

(** The manifest made of the given lines, each ended by a line feed. *)
Definition manifest (ls : list string) : bytes :=
  concat ((λ l, of_string l ++ [LF]) <$> ls).

(** The code of a line and its [//] comment, which runs to the end of
    the line. *)
Fixpoint cut_comment (s : bytes) : bytes * option bytes :=
  match s with
  | [] => ([], None)
  | c :: s' =>
      if decide (c = Separator ∧ head s' = Some Separator) then ([], Some s)
      else let '(code, com) := cut_comment s' in (c :: code, com)
  end.

(** strings.Fields over spaces and tabs. *)
Definition words (code : bytes) : list string :=
  to_string <$>
    filter (λ w, w ≠ [])
           (Split space ((λ c, if decide (c = tab) then space else c) <$> code)).

(** isIndirect(line) for the comment [// indirect]. *)
Definition isIndirect (suffix : list Comment.t) : bool :=
  match suffix with
  | c :: _ => bool_decide (Comment.Token c = "// indirect")
  | [] => false
  end.

Definition add_line (m : File.t) (ln : Line.t) : list Line.t := File.Syntax m ++ [ln].

(** One source line added to the tree built so far. *)
Definition statement (modFile : string) (m : File.t) (src : bytes) : result File.t :=
  let '(code, com) := cut_comment src in
  let suffix := match com with
                | Some c => [Comment.mk (to_string c) true]
                | None => []
                end in
  let toks := words code in
  let p : ptr := length (File.Syntax m) in
  let ln := Line.mk toks suffix in
  match toks with
  | [] => Ok m
  | [verb; arg] =>
      if decide (verb = "module") then
        match File.Module_ m with
        | Some _ => Failed (New (modFile +:+ ": repeated module statement"))
        | None =>
            Ok (File.mk (Some (Module_.mk (Version.mk arg "") p))
                        (File.Require_ m) (add_line m ln))
        end
      else if decide (verb = "go") then
        Ok (File.mk (File.Module_ m) (File.Require_ m) (add_line m ln))
      else Failed (New (modFile +:+ ": unknown directive: " +:+ verb))
  | [verb; arg; vers] =>
      if decide (verb = "require") then
        Ok (File.mk (File.Module_ m)
                    (File.Require_ m
                       ++ [Require_.mk (Version.mk arg vers) (isIndirect suffix) p])
                    (add_line m ln))
      else Failed (New (modFile +:+ ": unknown directive: " +:+ verb))
  | verb :: _ => Failed (New (modFile +:+ ": unknown directive: " +:+ verb))
  end.

Fixpoint statements (modFile : string) (m : File.t) (srcs : list bytes)
  : result File.t :=
  match srcs with
  | [] => Ok m
  | src :: rest =>
      match statement modFile m src with
      | Failed err => Failed err
      | Ok m' => statements modFile m' rest
      end
  end.

Definition Parse (modFile : string) (data : bytes) : result File.t :=
  statements modFile (File.mk None [] []) (Split LF data).

(** A line as the printer writes it: the tokens, the first suffix
    comment after them, and any further suffix comment on a line of its
    own. *)
Definition print_line (ln : Line.t) : bytes :=
  Unsplit space (of_string <$> Line.Token ln)
    ++ match Line.Suffix ln with
       | [] => []
       | c :: cs =>
           space :: of_string (Comment.Token c)
             ++ concat ((λ c', LF :: of_string (Comment.Token c')) <$> cs)
       end
    ++ [LF].

Definition Format (m : File.t) : result bytes :=
  Ok (concat (print_line <$> File.Syntax m)).

Definition impl : Modfile := Build_Modfile Parse Format.

End MiniMod.

(** ** Vocabulary of the properties *)

(** A path element that names something: not empty, not [.], not [..]. *)
Definition plain_elem (e : bytes) : Prop := e ≠ [] ∧ e ≠ [dot] ∧ e ≠ [dot; dot].

(** An element that names something and holds no separator: what the
    elements of a plain path are. *)
Definition good (e : bytes) : Prop := plain_elem e ∧ Separator ∉ e.

(** [k] times the element [..]. *)
Definition up (k : nat) : list bytes := replicate k [dot; dot].

(** The state of Clean's loop after [k] leading [..] elements and the
    elements [es]. *)
Definition climbed (k : nat) (es : list bytes) : bytes * nat :=
  (join_path (up k ++ es), length (join_path (up k))).

(** Clean's result from the final buffer. *)
Definition finish (out : bytes) : bytes := if decide (out = []) then [dot] else out.

(** A plain path: elements that name something, one slash between them
    ([example.com/foo/sub/pkg]). *)
Definition plain_path (p : string) : Prop :=
  Forall plain_elem (elements (of_string p)).

(** The first requirement of the list that is not indirect. *)
Fixpoint first_direct (rs : list Require_.t) : option Require_.t :=
  match rs with
  | [] => None
  | r :: rs' => if Require_.Indirect r then first_direct rs' else Some r
  end.

(** The suffix comments of the module line. *)
Definition module_Suffix (m : File.t) : option (list Comment.t) :=
  md ← File.Module_ m;
  ln ← File.Syntax m !! Module_.Syntax md;
  Some (Line.Suffix ln).

(** The suffix comments of the line of requirement [r]. *)
Definition require_Suffix (m : File.t) (r : Require_.t) : option (list Comment.t) :=
  Line.Suffix <$> File.Syntax m !! Require_.Syntax r.

(** The lines the statements of the tree point at: the module line first,
    then the requirements' lines in order. *)
Definition statement_ptrs (m : File.t) : list ptr :=
  option_list (Module_.Syntax <$> File.Module_ m)
    ++ (Require_.Syntax <$> File.Require_ m).

(** What the parser guarantees of its pointers: no two statements share
    a line. *)
Definition own_lines (m : File.t) : Prop := NoDup (statement_ptrs m).

(** The tree with the meta marker appended to the module line. *)
Definition with_meta (m : File.t) : option File.t :=
  md ← File.Module_ m;
  append_Suffix m (Module_.Syntax md) (Comment.mk metaComment true).

Global Instance plain_elem_dec (e : bytes) : Decision (plain_elem e).
Proof. unfold plain_elem. apply _. Defined.
Global Instance good_dec (e : bytes) : Decision (good e).
Proof. unfold good. apply _. Defined.
Global Instance plain_path_dec (p : string) : Decision (plain_path p).
Proof. unfold plain_path. apply _. Defined.
Global Instance own_lines_dec (m : File.t) : Decision (own_lines m).
Proof. unfold own_lines. apply _. Defined.

(** The tree AddMetaToMod hands to [Format]: the meta marker on the module
    line and, where the package is not the module itself, its path below
    the first direct requirement on that requirement's line. *)
Definition annotated (m : File.t) (pkg : string) : option File.t :=
  m1 ← with_meta m;
  r ← first_direct (File.Require_ m1);
  match add_subpackage m1 r pkg with
  | Return (Ok m2) => Some m2
  | _ => None
  end.

(** The collaborator's contract for the tree [m]: what [Format] writes for
    it, [Parse] reads back as [m]. *)
Definition round_trips {M : Modfile} (modFile : string) (m : File.t) : Prop :=
  ∀ b, Format m = Ok b → Parse modFile b = Ok m.

(** What the parser guarantees of its pointers: every statement points
    at a line of the tree. *)
Definition lines_in_range (m : File.t) : Prop :=
  Forall (λ p, p < length (File.Syntax m)) (statement_ptrs m).

Global Instance lines_in_range_dec (m : File.t) : Decision (lines_in_range m).
Proof. unfold lines_in_range. apply _. Defined.

(** ** Manifests to run the annotator on *)

Module Samples.

(** A manifest as the tool keeps it: one direct requirement, no
    marker. *)
Definition plain_mod : bytes :=
  MiniMod.manifest
    ["module tool/bin"; "";
     "go 1.14";
     "require example.com/bar v0.1.0 // indirect";
     "require example.com/foo v1.2.3"].

(** The same with a comment at the end of the direct requirement. *)
Definition pinned_mod : bytes :=
  MiniMod.manifest
    ["module tool/bin"; "";
     "require example.com/bar v0.1.0 // indirect";
     "require example.com/foo v1.2.3 // pinned"].

(** A direct requirement whose comment is the two slashes alone. *)
Definition bare_comment_mod : bytes :=
  MiniMod.manifest
    ["module tool/bin"; "";
     "require example.com/foo v1.2.3 //"].

(** A second direct requirement after the first. *)
Definition two_direct_mod : bytes :=
  MiniMod.manifest
    ["module tool/bin"; "";
     "require example.com/bar v0.1.0 // indirect";
     "require example.com/foo v1.2.3";
     "require example.com/baz v0.3.0"].

(** A manifest that carries the marker and requires nothing
    directly. *)
Definition marked_mod : bytes :=
  MiniMod.manifest
    ["module tool/bin // Auto generated by https://github.com/bwplotka/gobin. DO NOT EDIT";
     "";
     "require example.com/bar v0.1.0 // indirect"].

(** No marker and no direct requirement. *)
Definition indirect_only_mod : bytes :=
  MiniMod.manifest
    ["module tool/bin"; "";
     "require example.com/bar v0.1.0 // indirect"].

(** Not a manifest: a block is opened and never closed. *)
Definition broken_mod : bytes := MiniMod.manifest ["module tool/bin"; "require ("].

(** The file system with [data] as go.mod. *)
Definition disk (data : bytes) : gmap string bytes := {[ "go.mod" := data ]}.

(** The tree the parser returns for [data] (the empty tree when it
    returns none). *)
Definition tree (data : bytes) : File.t :=
  match MiniMod.Parse "go.mod" data with
  | Ok m => m
  | Failed _ => File.mk None [] []
  end.

(** The requirements of the samples, each on its line. *)
Definition foo (line : ptr) : Require_.t :=
  Require_.mk (Version.mk "example.com/foo" "v1.2.3") false line.

Definition bar (line : ptr) : Require_.t :=
  Require_.mk (Version.mk "example.com/bar" "v0.1.0") true line.

Definition baz (line : ptr) : Require_.t :=
  Require_.mk (Version.mk "example.com/baz" "v0.3.0") false line.

(** The annotator over the one-line parser and formatter. *)
Definition annotate (data : bytes) (pkg : string)
  : gmap string bytes * go (option error) :=
  AddMetaToMod (M := MiniMod.impl) os.no_faults (disk data) "go.mod" pkg.

(** Comments at the end of the module line and of the requirement. *)
Definition commented_mod : bytes :=
  MiniMod.manifest
    ["module tool/bin // tools of the build"; "";
     "require example.com/foo v1.2.3 // pinned"].

(** The one-line parser with a formatter that refuses every tree. *)
Definition refusing : Modfile :=
  Build_Modfile MiniMod.Parse (λ _, Failed (New "format: cannot print")).

End Samples.

(** * Properties *)

(** ** The path functions on the cases of Go's documentation and tests *)

Example Clean_cases :
  path.Clean <$> [""; "abc"; "a/b/c"; "."; ".."; "../../abc"; "/abc"; "/";
                  "abc/"; "a/b/c/"; "./"; "../"; "/abc/";
                  "abc//def//ghi"; "//abc"; "abc/./def"; "/./abc/def"; "abc/.";
                  "abc/def/ghi/../jkl"; "abc/def/../ghi/../jkl"; "abc/def/..";
                  "abc/def/../.."; "/abc/def/../.."; "abc/def/../../..";
                  "/abc/def/../../.."; "abc/def/../../../ghi/jkl/../../../mno";
                  "abc/./../def"; "abc//./../def"; "abc/../../././../def"]
  = ["."; "abc"; "a/b/c"; "."; ".."; "../../abc"; "/abc"; "/";
     "abc"; "a/b/c"; "."; ".."; "/abc";
     "abc/def/ghi"; "/abc"; "abc/def"; "/abc/def"; "abc";
     "abc/def/jkl"; "abc/jkl"; "abc";
     "."; "/"; "..";
     "/"; "../../mno";
     "def"; "def"; "../../def"].
Proof. vm_compute. reflexivity. Qed.

Example Join_cases :
  path.Join <$> [[]; [""]; ["a"]; ["a"; "b"]; ["a"; ""]; [""; "b"]; ["/"; "a"];
                 ["a/"; "b"]; ["a/"; ""]; [""; ""]; ["a"; "../b"]]
  = [""; ""; "a"; "a/b"; "a"; "b"; "/a"; "a/b"; "a"; ""; "b"].
Proof. vm_compute. reflexivity. Qed.

Example Rel_cases :
  (λ bt, filepath.Rel bt.1 bt.2) <$>
    [("a/b", "a/b"); ("a/b/.", "a/b"); ("./a/b", "a/b"); ("ab/cd", "ab/cde");
     ("ab/cd", "ab/c"); ("a/b", "a/b/c/d"); ("a/b", "a/b/../c"); ("a/b/../c", "a/b");
     ("a/b/c", "a/c/d"); ("a/b", "c/d"); ("a/b/c/d", "a/b"); ("a/b/c/d/", "a/b/");
     ("../../a/b", "../../a/b/c/d"); ("/a/b", "/a/b/c/d"); ("/a/b/c", "/a/c/d");
     ("/a/b/c/d", "/a/b"); (".", "a/b"); (".", "..")]
  = Ok <$> ["."; "."; "."; "../cde";
            "../c"; "c/d"; "../c"; "../b";
            "../../c/d"; "../../c/d"; "../.."; "../..";
            "c/d"; "c/d"; "../../c/d";
            "../.."; "a/b"; ".."].
Proof. vm_compute. reflexivity. Qed.

Example Rel_no_way :
  filepath.Rel ".." "a" = Failed (New "Rel: can't make a relative to ..") ∧
  filepath.Rel "a" "/a" = Failed (New "Rel: can't make /a relative to a") ∧
  filepath.Rel "/a" "a" = Failed (New "Rel: can't make a relative to /a").
Proof. vm_compute. done. Qed.

(** ** Strings, splitting and joining *)


Lemma to_of_string (s : string) : to_string (of_string s) = s.
Proof. apply string_of_list_ascii_of_string. Qed.

Lemma of_string_app (s1 s2 : string) :
  of_string (s1 +:+ s2) = of_string s1 ++ of_string s2.
Proof. induction s1 as [|c s1 IH]; simpl; [done|]. by rewrite IH. Qed.

Lemma Split_nonempty sep s : Split sep s ≠ [].
Proof. destruct s as [|c s]; simpl; [done|]. case_decide; [done|]. by destruct (Split sep s). Qed.

Lemma Unsplit_cons sep e es :
  es ≠ [] → Unsplit sep (e :: es) = e ++ sep :: Unsplit sep es.
Proof. by destruct es. Qed.

Lemma Unsplit_Split sep s : Unsplit sep (Split sep s) = s.
Proof.
  induction s as [|c s IH]; simpl; [done|].
  case_decide as Hc.
  - subst c. rewrite Unsplit_cons by apply Split_nonempty. by rewrite IH.
  - pose proof (Split_nonempty sep s) as Hne.
    destruct (Split sep s) as [|e es]; [done|].
    destruct es as [|e' es].
    + simpl in *. by rewrite IH.
    + rewrite Unsplit_cons by done. rewrite Unsplit_cons in IH by done.
      by rewrite <- IH.
Qed.

Lemma Split_sep_free sep e : sep ∉ e → Split sep e = [e].
Proof.
  induction e as [|c e IH]; intros Hin; simpl; [done|].
  rewrite not_elem_of_cons in Hin. destruct Hin as [Hc He].
  rewrite decide_False by done. by rewrite IH.
Qed.

Lemma Split_app_sep sep e s :
  sep ∉ e → Split sep (e ++ sep :: s) = e :: Split sep s.
Proof.
  induction e as [|c e IH]; intros Hin; simpl.
  - by rewrite decide_True.
  - rewrite not_elem_of_cons in Hin. destruct Hin as [Hc He].
    rewrite decide_False by done. by rewrite IH.
Qed.

Lemma Split_Unsplit sep es :
  es ≠ [] → Forall (λ e, sep ∉ e) es → Split sep (Unsplit sep es) = es.
Proof.
  induction es as [|e es IH]; intros Hne Hall; [done|].
  apply Forall_cons in Hall as [He Hes].
  destruct es as [|e' es].
  - simpl. by apply Split_sep_free.
  - rewrite Unsplit_cons by done. rewrite Split_app_sep by done.
    by rewrite IH.
Qed.

Lemma Split_Forall_sep_free sep s : Forall (λ e, sep ∉ e) (Split sep s).
Proof.
  induction s as [|c s IH]; simpl.
  - repeat constructor. apply not_elem_of_nil.
  - case_decide as Hc.
    + constructor; [apply not_elem_of_nil|done].
    + destruct (Split sep s) as [|e es].
      { constructor; [|done]. rewrite not_elem_of_cons. split; [done|apply not_elem_of_nil]. }
      apply Forall_cons in IH as [He Hes].
      constructor; [|done]. rewrite not_elem_of_cons. naive_solver.
Qed.

Lemma Unsplit_app sep es1 es2 :
  es1 ≠ [] → es2 ≠ [] →
  Unsplit sep (es1 ++ es2) = Unsplit sep es1 ++ sep :: Unsplit sep es2.
Proof.
  induction es1 as [|e es1 IH]; intros H1 H2; [done|].
  destruct es1 as [|e' es1].
  - change ([e] ++ es2) with (e :: es2). rewrite Unsplit_cons by done. reflexivity.
  - rewrite <- app_comm_cons. rewrite Unsplit_cons by done.
    rewrite IH by done. rewrite (Unsplit_cons sep e (e' :: es1)) by done.
    by rewrite <- app_assoc.
Qed.


(** ** Elements of paths *)

Lemma good_nonempty (e : bytes) : good e → e ≠ [].
Proof. by intros [[? _] _]. Qed.

Lemma join_snoc (s : list bytes) (e : bytes) :
  join_path (s ++ [e]) = if decide (s = []) then e else join_path s ++ Separator :: e.
Proof.
  unfold join_path. destruct s as [|e0 s]; [done|].
  rewrite decide_False by done.
  by rewrite Unsplit_app by done.
Qed.

Lemma backtrack_rev_sep_free_all (r : bytes) :
  Separator ∉ r → path.backtrack_rev r 0 = [].
Proof.
  induction r as [|c r IH]; intros Hin; cbn [path.backtrack_rev]; [done|].
  rewrite not_elem_of_cons in Hin. destruct Hin as [Hc Hr].
  case_decide as Hl.
  - rewrite decide_False by done. by apply IH.
  - destruct r; [done|simpl in Hl; lia].
Qed.

Lemma good_dotdot_free (e : bytes) : good e → e ≠ [dot; dot].
Proof. by intros [[_ [_ ?]] _]. Qed.

Lemma replicate_dotdot_sep_free k :
  Forall (λ e, Separator ∉ e) (replicate k [dot; dot]).
Proof.
  apply Forall_replicate. rewrite !not_elem_of_cons.
  split_and!; [done..|apply not_elem_of_nil].
Qed.

Lemma good_sep_free (es : list bytes) : Forall good es → Forall (λ e, Separator ∉ e) es.
Proof. intros H. eapply Forall_impl; [exact H|]. by intros e [_ ?]. Qed.

(** ** Clean on any path that is not rooted *)

Lemma join_path_nil_inv (l : list bytes) :
  Forall (λ e, e ≠ []) l → join_path l = [] → l = [].
Proof.
  intros Hl Hj. destruct l as [|e l]; [done|]. exfalso.
  apply Forall_cons in Hl as [He _].
  unfold join_path in Hj. destruct l as [|e' l]; simpl in Hj; [done|].
  by destruct e.
Qed.

Lemma up_nonempty_elems (k : nat) : Forall (λ e : bytes, e ≠ []) (up k).
Proof. by apply Forall_replicate. Qed.

Lemma good_nonempty_elems (es : list bytes) :
  Forall good es → Forall (λ e : bytes, e ≠ []) es.
Proof. intros H. eapply Forall_impl; [exact H|]. intros e. apply good_nonempty. Qed.

Lemma join_good_nil (s : list bytes) : Forall good s → join_path s = [] → s = [].
Proof. intros Hs. apply join_path_nil_inv. by apply good_nonempty_elems. Qed.

Lemma climb_nonempty_elems (k : nat) (es : list bytes) :
  Forall good es → Forall (λ e : bytes, e ≠ []) (up k ++ es).
Proof.
  intros Hes. apply Forall_app. split;
    [apply up_nonempty_elems|by apply good_nonempty_elems].
Qed.

Lemma up_S_end (k : nat) : up k ++ [[dot; dot]] = up (S k).
Proof.
  unfold up. induction k as [|k IH]; [done|].
  cbn [replicate app]. by rewrite IH.
Qed.

Lemma join_path_app_length (l1 l2 : list bytes) :
  Forall (λ e, e ≠ []) l2 → l2 ≠ [] →
  length (join_path l1) < length (join_path (l1 ++ l2)).
Proof.
  intros Hl2 Hne. unfold join_path. destruct l1 as [|e1 l1].
  - cbn [app Unsplit length].
    destruct (Unsplit Separator l2) eqn:Hj; [|simpl; lia].
    by apply (join_path_nil_inv l2) in Hj.
  - rewrite Unsplit_app by done. rewrite length_app. simpl. lia.
Qed.

Lemma backtrack_rev_to_sep (r rest : bytes) (d : nat) :
  Separator ∉ r → (d ≤ length rest)%nat →
  path.backtrack_rev (r ++ Separator :: rest) d = rest.
Proof.
  induction r as [|c r IH]; intros Hin Hd; cbn [path.backtrack_rev app].
  - case_decide; [by rewrite decide_True|done].
  - rewrite not_elem_of_cons in Hin. destruct Hin as [Hc Hr].
    rewrite decide_True by (rewrite length_app; simpl; lia).
    rewrite decide_False by done. by apply IH.
Qed.

Lemma backtrack_last (l : list bytes) (e : bytes) (d : nat) :
  l ≠ [] → Separator ∉ e → (d ≤ length (join_path l))%nat →
  path.backtrack (join_path (l ++ [e])) d = join_path l.
Proof.
  intros Hl He Hd. unfold path.backtrack. rewrite join_snoc.
  rewrite decide_False by done.
  rewrite reverse_app, reverse_cons, <- app_assoc. cbn [app].
  rewrite backtrack_rev_to_sep.
  - apply reverse_involutive.
  - by rewrite elem_of_reverse.
  - by rewrite length_reverse.
Qed.

Lemma Clean_elem_skip (st : bytes * nat) (e : bytes) :
  e = [] ∨ e = [dot] → path.Clean_elem false st e = st.
Proof.
  destruct st as [out d]. intros [->| ->]; unfold path.Clean_elem.
  - by rewrite decide_True.
  - rewrite decide_False by done. by rewrite decide_True.
Qed.

Lemma Clean_elem_down (k : nat) (es : list bytes) (e : bytes) :
  Forall good es → good e →
  path.Clean_elem false (climbed k es) e = climbed k (es ++ [e]).
Proof.
  intros Hes [[He1 [He2 He3]] He4]. unfold path.Clean_elem, climbed.
  rewrite !decide_False by done. rewrite app_assoc, join_snoc. cbn [negb orb andb].
  f_equal. case_decide as Hnil.
  - by rewrite Hnil.
  - destruct (join_path (up k ++ es)) eqn:Hj.
    { apply join_path_nil_inv in Hj; [done|by apply climb_nonempty_elems]. }
    cbn [length Nat.eqb negb]. by rewrite <- app_assoc.
Qed.

Lemma Clean_elem_back (k : nat) (es : list bytes) (e : bytes) :
  Forall good es → good e →
  path.Clean_elem false (climbed k (es ++ [e])) [dot; dot] = climbed k es.
Proof.
  intros Hes He. unfold path.Clean_elem, climbed.
  rewrite decide_False by done. rewrite decide_False by done.
  rewrite decide_True by done.
  assert (length (join_path (up k)) < length (join_path (up k ++ es ++ [e]))) as Hlt.
  { apply join_path_app_length; [|by destruct es].
    apply good_nonempty_elems, Forall_app. split; [done|by constructor]. }
  rewrite decide_True by done. f_equal.
  rewrite app_assoc.
  destruct (decide (up k ++ es = [])) as [Hnil|Hnil].
  - rewrite Hnil. apply app_eq_nil in Hnil as [Hk ->].
    rewrite Hk. cbn [app join_path Unsplit length].
    unfold path.backtrack. rewrite backtrack_rev_sep_free_all; [done|].
    rewrite elem_of_reverse. apply He.
  - apply backtrack_last; [done|apply He|].
    pose proof (join_path_app_length (up k) es) as Hle.
    destruct es as [|e0 es]; [by rewrite app_nil_r|].
    apply Nat.lt_le_incl, Hle; [by apply good_nonempty_elems|done].
Qed.

Lemma Clean_elem_climb (k : nat) :
  path.Clean_elem false (climbed k []) [dot; dot] = climbed (S k) [].
Proof.
  unfold path.Clean_elem, climbed. rewrite !app_nil_r.
  rewrite decide_False by done. rewrite decide_False by done.
  rewrite decide_True by done.
  rewrite decide_False by lia. cbn zeta.
  assert ((if decide (0 < length (join_path (up k)))
           then join_path (up k) ++ [Separator] else join_path (up k)) ++ [dot; dot]
          = join_path (up (S k))) as ->.
  { rewrite <- up_S_end, join_snoc.
    destruct (decide (up k = [])) as [Hnil|Hnil].
    - rewrite Hnil. by cbn.
    - rewrite decide_True; [by rewrite <- app_assoc|].
      destruct (join_path (up k)) eqn:Hj; [|simpl; lia].
      by apply join_path_nil_inv in Hj; [|apply up_nonempty_elems]. }
  done.
Qed.

(** Whatever the elements, the loop stays in a state of that shape. *)
Lemma Clean_fold_climbed (elems : list bytes) (k : nat) (es : list bytes) :
  Forall (λ e, Separator ∉ e) elems → Forall good es →
  ∃ k' es', Forall good es' ∧
            fold_left (path.Clean_elem false) elems (climbed k es) = climbed k' es'.
Proof.
  revert k es. induction elems as [|e elems IH]; intros k es Hfree Hes; cbn [fold_left].
  - by exists k, es.
  - apply Forall_cons in Hfree as [He Hfree].
    destruct (decide (e = [])) as [->|Hne].
    { rewrite Clean_elem_skip by (by left). by apply IH. }
    destruct (decide (e = [dot])) as [->|Hdot].
    { rewrite Clean_elem_skip by (by right). by apply IH. }
    destruct (decide (e = [dot; dot])) as [->|Hdd].
    + destruct es as [|e0 es _] using rev_ind.
      * rewrite Clean_elem_climb. by apply IH.
      * apply Forall_app in Hes as [Hes He0]. apply Forall_cons in He0 as [He0 _].
        rewrite Clean_elem_back by done. by apply IH.
    + rewrite Clean_elem_down by done.
      apply IH; [done|]. apply Forall_app. split; [done|]. by repeat constructor.
Qed.

Lemma Clean_fold_down (es2 : list bytes) (k : nat) (es : list bytes) :
  Forall good es → Forall good es2 →
  fold_left (path.Clean_elem false) es2 (climbed k es) = climbed k (es ++ es2).
Proof.
  revert es. induction es2 as [|e es2 IH]; intros es Hes Hes2; cbn [fold_left].
  - by rewrite app_nil_r.
  - apply Forall_cons in Hes2 as [He Hes2].
    rewrite Clean_elem_down by done.
    rewrite IH; [|apply Forall_app; split; [done|by constructor]|done].
    by rewrite <- app_assoc.
Qed.


Lemma Clean_bytes_unrooted (p : bytes) :
  p ≠ [] → head p ≠ Some Separator →
  path.Clean_bytes p
  = finish (fold_left (path.Clean_elem false) (elements p) (climbed 0 [])).1.
Proof.
  intros Hne Hhead. destruct p as [|c p]; [done|].
  unfold path.Clean_bytes. rewrite bool_decide_eq_false_2; [done|].
  intros ->. by apply Hhead.
Qed.

Lemma climbed_finish_good (es : list bytes) :
  es ≠ [] → Forall good es → finish (climbed 0 es).1 = join_path es.
Proof.
  intros Hne Hes. unfold finish, climbed. cbn [fst up replicate app].
  rewrite decide_False; [done|]. intros Hj. by apply join_good_nil in Hj.
Qed.

Lemma head_join_path_good (es : list bytes) :
  Forall good es → head (join_path es) ≠ Some Separator.
Proof.
  intros Hes. destruct es as [|e es]; [done|].
  apply Forall_cons in Hes as [[[He _] Hfree] _].
  destruct e as [|x e]; [done|].
  assert (head (join_path ((x :: e) :: es)) = Some x) as ->.
  { unfold join_path. by destruct es. }
  intros [= ->]. apply Hfree. by left.
Qed.

Lemma join_path_inj (es1 es2 : list bytes) :
  es1 ≠ [] → es2 ≠ [] →
  Forall (λ e, Separator ∉ e) es1 → Forall (λ e, Separator ∉ e) es2 →
  join_path es1 = join_path es2 → es1 = es2.
Proof.
  intros H1 H2 Hf1 Hf2 Heq.
  rewrite <- (Split_Unsplit Separator es1), <- (Split_Unsplit Separator es2) by done.
  unfold join_path in Heq. by rewrite Heq.
Qed.

(** Clean leaves a path of good elements as it is. *)
Lemma Clean_bytes_good (es : list bytes) :
  es ≠ [] → Forall good es → path.Clean_bytes (join_path es) = join_path es.
Proof.
  intros Hne Hes.
  rewrite Clean_bytes_unrooted.
  - unfold elements, join_path. rewrite Split_Unsplit by (by try apply good_sep_free).
    fold (join_path es). rewrite Clean_fold_down by done.
    by apply climbed_finish_good.
  - intros Hj. by apply join_good_nil in Hj.
  - by apply head_join_path_good.
Qed.

(** ** Clean on a rooted path *)

Lemma backtrack_rev_suffix (r : bytes) (d : nat) :
  d < length r →
  ∃ pre, r = pre ++ path.backtrack_rev r d ∧ (d ≤ length (path.backtrack_rev r d))%nat.
Proof.
  induction r as [|c r IH]; intros Hd; cbn [path.backtrack_rev length] in *; [lia|].
  case_decide as Hlt.
  - case_decide as Hc.
    + exists [c]. split; [done|lia].
    + destruct (IH Hlt) as (pre & Hpre & Hlen). exists (c :: pre).
      split; [|done]. cbn [app]. by rewrite <- Hpre.
  - exists [c]. split; [done|lia].
Qed.

Lemma backtrack_head (out : bytes) (d : nat) :
  0 < d → d < length out → head (path.backtrack out d) = head out.
Proof.
  intros Hd Hlt. unfold path.backtrack.
  destruct (backtrack_rev_suffix (reverse out) d) as (pre & Hpre & Hlen);
    [by rewrite length_reverse|].
  rewrite <- (reverse_involutive out) at 2. rewrite Hpre at 2.
  rewrite reverse_app.
  destruct (reverse (path.backtrack_rev (reverse out) d)) as [|c l] eqn:Hrev; [|done].
  apply (f_equal length) in Hrev. rewrite length_reverse in Hrev. simpl in Hrev. lia.
Qed.

Lemma Clean_elem_rooted (tl : bytes) (e : bytes) :
  ∃ tl', path.Clean_elem true (Separator :: tl, 1) e = (Separator :: tl', 1).
Proof.
  unfold path.Clean_elem. repeat case_decide; try by eexists.
  - (* [..]: the buffer keeps its leading slash *)
    assert (head (path.backtrack (Separator :: tl) 1) = Some Separator) as Hhead
      by (by rewrite backtrack_head by (done || lia)).
    destruct (path.backtrack (Separator :: tl) 1) as [|c tl']; [done|].
    injection Hhead as ->. by eexists.
  - cbn [andb orb negb]. destruct (negb _); by eexists.
Qed.

Lemma Clean_fold_rooted (elems : list bytes) (tl : bytes) :
  ∃ tl', fold_left (path.Clean_elem true) elems (Separator :: tl, 1)
         = (Separator :: tl', 1).
Proof.
  revert tl. induction elems as [|e elems IH]; intros tl; cbn [fold_left].
  - by exists tl.
  - destruct (Clean_elem_rooted tl e) as (tl' & ->). apply IH.
Qed.

Lemma Clean_bytes_rooted (p : bytes) :
  head p = Some Separator → head (path.Clean_bytes p) = Some Separator.
Proof.
  destruct p as [|c p]; [done|]. intros [= ->].
  unfold path.Clean_bytes. rewrite bool_decide_eq_true_2 by done. cbn zeta.
  destruct (Clean_fold_rooted (elements p) []) as (tl' & ->).
  cbn [fst]. by rewrite decide_False.
Qed.

(** ** Rel between paths of good elements *)

Lemma scan_sep_free (e : bytes) : Separator ∉ e → scan e = (e, []).
Proof.
  induction e as [|c e IH]; intros Hin; cbn [scan]; [done|].
  rewrite not_elem_of_cons in Hin. destruct Hin as [Hc He].
  rewrite decide_False by done. by rewrite IH.
Qed.

Lemma scan_app_sep (e s : bytes) :
  Separator ∉ e → scan (e ++ Separator :: s) = (e, Separator :: s).
Proof.
  induction e as [|c e IH]; intros Hin; cbn [scan app].
  - by rewrite decide_True.
  - rewrite not_elem_of_cons in Hin. destruct Hin as [Hc He].
    rewrite decide_False by done. by rewrite IH.
Qed.

Lemma scan_join_path (e : bytes) (es : list bytes) :
  Separator ∉ e →
  ∃ rest, scan (join_path (e :: es)) = (e, rest) ∧ tail rest = join_path es.
Proof.
  intros He. unfold join_path. destruct es as [|e' es].
  - exists []. cbn [Unsplit]. by rewrite scan_sep_free.
  - exists (Separator :: Unsplit Separator (e' :: es)).
    rewrite Unsplit_cons by done. by rewrite scan_app_sep.
Qed.

Lemma join_path_cons_length (e : bytes) (es : list bytes) :
  e ≠ [] → length (join_path es) < length (join_path (e :: es)).
Proof.
  intros He. unfold join_path. destruct es as [|e' es].
  - destruct e; [done|simpl; lia].
  - rewrite (Unsplit_cons _ e) by done. rewrite length_app. simpl. lia.
Qed.

Lemma join_path_cons_nonempty (e : bytes) (es : list bytes) :
  e ≠ [] → join_path (e :: es) ≠ [].
Proof.
  intros He Hj. pose proof (join_path_cons_length e es He) as Hl.
  rewrite Hj in Hl. simpl in Hl. lia.
Qed.

(** One turn of the loop of Rel on two paths of good elements. *)
Lemma Rel_loop_step (fuel : nat) (be te : bytes) (bs ts : list bytes) :
  be ≠ [] → Separator ∉ be → te ≠ [] → Separator ∉ te →
  filepath.Rel_loop (S fuel) (join_path (be :: bs)) (join_path (te :: ts))
  = if decide (te = be)
    then filepath.Rel_loop fuel (join_path bs) (join_path ts)
    else (be, join_path (be :: bs), join_path (te :: ts)).
Proof.
  intros Hbe Hbfree Hte Htfree. cbn [filepath.Rel_loop].
  rewrite decide_False.
  2:{ intros [H|H]; eapply join_path_cons_nonempty in H; eauto. }
  destruct (scan_join_path be bs) as (rb & -> & Hrb); [done|].
  destruct (scan_join_path te ts) as (rt & -> & Hrt); [done|].
  by rewrite Hrb, Hrt.
Qed.

(** The loop of Rel strips the common leading elements and stops at the
    first pair that differs, or at the end of either path. *)
Lemma Rel_loop_good (bs ts : list bytes) (fuel : nat) :
  Forall good bs → Forall good ts → (length (join_path bs) ≤ fuel)%nat →
  ∃ c bs' ts' be,
    bs = c ++ bs' ∧ ts = c ++ ts' ∧
    filepath.Rel_loop fuel (join_path bs) (join_path ts)
      = (be, join_path bs', join_path ts') ∧
    be ≠ [dot; dot] ∧ (bs' = [] → ts' = [] → bs = ts).
Proof.
  revert ts fuel. induction bs as [|b bs IH]; intros ts fuel Hbs Hts Hfuel.
  - exists [], [], ts, []. split_and!; try done.
    destruct fuel; cbn [filepath.Rel_loop]; [done|].
    rewrite decide_True; [done|by left].
  - apply Forall_cons in Hbs as [Hb Hbs].
    destruct ts as [|t ts].
    { exists [], (b :: bs), [], []. split_and!; try done.
      destruct fuel; cbn [filepath.Rel_loop]; [done|].
      rewrite decide_True; [done|by right]. }
    apply Forall_cons in Hts as [Ht Hts].
    pose proof (join_path_cons_length b bs (good_nonempty _ Hb)) as Hlen.
    destruct fuel as [|fuel]; [lia|].
    rewrite Rel_loop_step by (try apply Hb; try apply Ht; by eapply good_nonempty).
    case_decide as Heq.
    + subst t.
      destruct (IH ts fuel Hbs Hts) as (c & bs' & ts' & be & -> & -> & Hloop & Hbe & Hsame);
        [lia|].
      exists (b :: c), bs', ts', be. split_and!; try done.
      intros H1 H2. by rewrite (Hsame H1 H2).
    + exists [], (b :: bs), (t :: ts), b. split_and!; try done.
      by apply good_dotdot_free.
Qed.

Lemma Count_sep_sep_free (e : bytes) : Separator ∉ e → filepath.Count_sep e = 0.
Proof.
  unfold filepath.Count_sep. induction e as [|c e IH]; intros Hin; [done|].
  rewrite not_elem_of_cons in Hin. destruct Hin as [Hc He].
  rewrite filter_cons_False by (intros ->; done). by apply IH.
Qed.

Lemma Count_sep_app (s1 s2 : bytes) :
  filepath.Count_sep (s1 ++ s2) = filepath.Count_sep s1 + filepath.Count_sep s2.
Proof. unfold filepath.Count_sep. by rewrite filter_app, length_app. Qed.

Lemma Count_sep_join_path (es : list bytes) :
  Forall (λ e, Separator ∉ e) es →
  filepath.Count_sep (join_path es) = length es - 1.
Proof.
  induction es as [|e es IH]; intros Hes; [done|].
  apply Forall_cons in Hes as [He Hes].
  unfold join_path in *. destruct es as [|e' es].
  - by apply Count_sep_sep_free.
  - rewrite Unsplit_cons by done.
    rewrite Count_sep_app, Count_sep_sep_free by done.
    change (Separator :: ?l) with ([Separator] ++ l).
    rewrite Count_sep_app, IH by done. simpl. lia.
Qed.

Lemma dotdots_join_path (n : nat) :
  filepath.dotdots n = join_path (replicate (S n) [dot; dot]).
Proof.
  induction n as [|n IH]; [done|].
  cbn [filepath.dotdots]. rewrite IH. unfold join_path.
  change (replicate (S (S n)) [dot; dot])
    with ([dot; dot] :: replicate (S n) [dot; dot]).
  by rewrite Unsplit_cons by done.
Qed.

(** Rel between two paths of good elements: up over what is left of the
    base after the common elements, then down what is left of the target. *)
Lemma Rel_bytes_good (bs ts : list bytes) :
  bs ≠ [] → ts ≠ [] → Forall good bs → Forall good ts → bs ≠ ts →
  ∃ c bs' ts',
    bs = c ++ bs' ∧ ts = c ++ ts' ∧
    replicate (length bs') [dot; dot] ++ ts' ≠ [] ∧
    filepath.Rel_bytes (join_path bs) (join_path ts)
      = Some (join_path (replicate (length bs') [dot; dot] ++ ts')).
Proof.
  intros Hbne Htne Hbs Hts Hneq.
  destruct (Rel_loop_good bs ts (length (join_path bs)) Hbs Hts)
    as (c & bs' & ts' & be & Hb & Ht & Hloop & Hbe & Hsame); [done|].
  exists c, bs', ts'. split_and!; try done.
  { destruct bs'; [|done]. destruct ts'; [|done]. by destruct Hneq; apply Hsame. }
  unfold filepath.Rel_bytes. rewrite !Clean_bytes_good by done.
  rewrite decide_False.
  2:{ intros Heq. apply Hneq. symmetry.
      apply join_path_inj; auto using good_sep_free. }
  rewrite (decide_False (P := join_path bs = [dot])).
  2:{ intros Heq. change [dot] with (join_path [[dot]]) in Heq.
      apply join_path_inj in Heq; auto using good_sep_free.
      - rewrite Heq in Hbs. apply Forall_cons in Hbs as [[[_ [H _]] _] _]. done.
      - repeat constructor. rewrite not_elem_of_cons. split; [done|apply not_elem_of_nil]. }
  rewrite !bool_decide_eq_false_2 by (by apply head_join_path_good).
  rewrite decide_False by (intros H; by apply H).
  rewrite Hloop. rewrite decide_False by done.
  assert (Forall good bs') as Hbs'.
  { rewrite Hb in Hbs. by apply Forall_app in Hbs as [_ ?]. }
  assert (Forall good ts') as Hts'.
  { rewrite Ht in Hts. by apply Forall_app in Hts as [_ ?]. }
  destruct bs' as [|b0 bs'].
  - rewrite decide_False by (intros H; by apply H). done.
  - apply Forall_cons in Hbs' as [Hb0 Hbs'].
    rewrite decide_True by (apply join_path_cons_nonempty; by eapply good_nonempty).
    f_equal. rewrite Count_sep_join_path
      by (apply good_sep_free; by constructor).
    cbn [length]. rewrite Nat.sub_succ, Nat.sub_0_r, dotdots_join_path.
    destruct ts' as [|t0 ts'].
    + rewrite decide_False by (intros H; by apply H). by rewrite !app_nil_r.
    + apply Forall_cons in Hts' as [Ht0 Hts'].
      rewrite decide_True by (apply join_path_cons_nonempty; by eapply good_nonempty).
      unfold join_path. by rewrite Unsplit_app by done.
Qed.

(** ** Rel to a plain target, from any base *)




(** ** Strings *)

Lemma slice_from_prefix (s1 s2 : string) :
  slice_from (String.length s1) (s1 +:+ s2) = s2.
Proof.
  unfold slice_from. rewrite of_string_app.
  assert (String.length s1 = length (of_string s1)) as ->.
  { induction s1 as [|c s1 IH]; simpl; [done|]. by rewrite IH. }
  by rewrite drop_app_length, to_of_string.
Qed.

Lemma plain_path_good (p : string) :
  plain_path p →
  ∃ es, es ≠ [] ∧ Forall good es ∧ of_string p = join_path es.
Proof.
  intros Hp. exists (elements (of_string p)). split_and!.
  - apply Split_nonempty.
  - unfold plain_path in Hp. unfold good, elements in *.
    pose proof (Split_Forall_sep_free Separator (of_string p)) as Hfree.
    rewrite Forall_forall in Hp. rewrite Forall_forall in Hfree.
    apply Forall_forall. intros e He. split; [by apply Hp|by apply Hfree].
  - unfold join_path, elements. by rewrite Unsplit_Split.
Qed.

(** Clean leaves a plain path as it is. *)
Lemma Clean_plain (p : string) : plain_path p → path.Clean p = p.
Proof.
  intros (es & Hne & Hes & Hp)%plain_path_good.
  unfold path.Clean. rewrite Hp, Clean_bytes_good by done.
  by rewrite <- Hp, to_of_string.
Qed.


(** ** The loops *)

Lemma ModHasMeta_range_true (suffix : list Comment.t) :
  ModHasMeta_range suffix = true ↔
  ∃ c, c ∈ suffix ∧ Comment.Token c = metaComment.
Proof.
  induction suffix as [|c cs IH]; cbn [ModHasMeta_range].
  - split; [done|]. intros (c & Hc & _). by apply elem_of_nil in Hc.
  - case_decide as Htok.
    + split; [|done]. intros _. exists c. split; [by left|done].
    + rewrite IH. split.
      * intros (c' & Hc' & Ht). exists c'. split; [by right|done].
      * intros (c' & Hc' & Ht). apply elem_of_cons in Hc' as [->|Hc']; [done|].
        by exists c'.
Qed.


Lemma first_direct_None (rs : list Require_.t) :
  first_direct rs = None ↔ Forall (λ r, Require_.Indirect r = true) rs.
Proof.
  induction rs as [|r rs IH]; cbn [first_direct]; [done|].
  destruct (Require_.Indirect r) eqn:Hr.
  - rewrite IH. split; [by constructor|]. by intros [_ ?]%Forall_cons.
  - split; [done|]. intros [? _]%Forall_cons. congruence.
Qed.

(** The first direct requirement splits the list: only indirect ones
    stand before it. *)
Lemma first_direct_Some (rs : list Require_.t) (r : Require_.t) :
  first_direct rs = Some r ↔
  ∃ pre post, rs = pre ++ r :: post ∧
              Forall (λ r', Require_.Indirect r' = true) pre ∧
              Require_.Indirect r = false.
Proof.
  induction rs as [|r0 rs IH]; cbn [first_direct].
  - split; [done|]. intros (pre & post & H & _). by destruct pre.
  - destruct (Require_.Indirect r0) eqn:Hr0.
    + rewrite IH. split.
      * intros (pre & post & -> & Hpre & Hr). exists (r0 :: pre), post.
        split_and!; [done|by constructor|done].
      * intros (pre & post & Heq & Hpre & Hr).
        destruct pre as [|p pre]; simplify_eq/=; [congruence|].
        apply Forall_cons in Hpre as [_ Hpre]. by exists pre, post.
    + split.
      * intros [= ->]. exists [], rs. by split_and!.
      * intros (pre & post & Heq & Hpre & Hr).
        destruct pre as [|p pre]; simplify_eq/=; [done|].
        apply Forall_cons in Hpre as [? _]. congruence.
Qed.

Lemma first_direct_elem_of (rs : list Require_.t) (r : Require_.t) :
  first_direct rs = Some r → r ∈ rs.
Proof.
  intros (pre & post & -> & _)%first_direct_Some.
  apply elem_of_app. right. by left.
Qed.

(** The loop of ModDirectPackage looks at the first direct requirement
    and at nothing after it. *)
Lemma ModDirectPackage_range_first (lines : list Line.t) (rs : list Require_.t) :
  ModDirectPackage_range lines rs
  = match first_direct rs with
    | None => Return ("", None)
    | Some r =>
        match lines !! Require_.Syntax r with
        | None => Panic nil_dereference
        | Some ln => suffixed (Version.Path (Require_.Mod r)) (Line.Suffix ln)
        end
    end.
Proof.
  induction rs as [|r rs IH]; cbn [ModDirectPackage_range first_direct]; [done|].
  by destruct (Require_.Indirect r).
Qed.

(** ** Appending a suffix comment through a pointer *)

Lemma append_Suffix_Some (m m' : File.t) (p : ptr) (c : Comment.t) :
  append_Suffix m p c = Some m' →
  ∃ ln, File.Syntax m !! p = Some ln ∧
        m' = File.mk (File.Module_ m) (File.Require_ m)
               (<[p := Line.mk (Line.Token ln) (Line.Suffix ln ++ [c])]> (File.Syntax m)).
Proof.
  unfold append_Suffix. destruct (File.Syntax m !! p) as [ln|] eqn:Hln; [|done].
  intros [= <-]. by exists ln.
Qed.

Lemma append_Suffix_Require (m m' : File.t) (p : ptr) (c : Comment.t) :
  append_Suffix m p c = Some m' → File.Require_ m' = File.Require_ m.
Proof. by intros (ln & _ & ->)%append_Suffix_Some. Qed.

Lemma append_Suffix_Module (m m' : File.t) (p : ptr) (c : Comment.t) :
  append_Suffix m p c = Some m' → File.Module_ m' = File.Module_ m.
Proof. by intros (ln & _ & ->)%append_Suffix_Some. Qed.

(** The line pointed at gets the comment at the end of its suffix. *)
Lemma append_Suffix_lookup_eq (m m' : File.t) (p : ptr) (c : Comment.t) :
  append_Suffix m p c = Some m' →
  ∃ ln, File.Syntax m !! p = Some ln ∧
        File.Syntax m' !! p = Some (Line.mk (Line.Token ln) (Line.Suffix ln ++ [c])).
Proof.
  intros (ln & Hln & ->)%append_Suffix_Some. exists ln. split; [done|].
  cbn [File.Syntax]. apply list_lookup_insert_eq. by eapply lookup_lt_Some.
Qed.

(** Every other line stays as it is. *)
Lemma append_Suffix_lookup_ne (m m' : File.t) (p q : ptr) (c : Comment.t) :
  append_Suffix m p c = Some m' → p ≠ q →
  File.Syntax m' !! q = File.Syntax m !! q.
Proof.
  intros (ln & Hln & ->)%append_Suffix_Some Hpq.
  cbn [File.Syntax]. by apply list_lookup_insert_ne.
Qed.

(** ** The operations on a parsed manifest *)

Section Operations.

Context {M : Modfile}.

Lemma ModHasMeta_parsed (fs : gmap string bytes) (modFile : string)
    (r : option Reader) (b : bytes) (m : File.t) :
  readAllFileOrReader fs modFile r = Ok b →
  Parse modFile b = Ok m →
  ModHasMeta fs modFile r
  = match module_Suffix m with
    | Some cs => Return (ModHasMeta_range cs, None)
    | None => Panic nil_dereference
    end.
Proof.
  intros Hread Hparse. unfold ModHasMeta, module_Suffix.
  rewrite Hread, Hparse.
  destruct (File.Module_ m) as [md|]; cbn; [|done].
  by destruct (File.Syntax m !! Module_.Syntax md).
Qed.

Lemma ModDirectPackage_parsed (fs : gmap string bytes) (modFile : string)
    (r : option Reader) (b : bytes) (m : File.t) :
  readAllFileOrReader fs modFile r = Ok b →
  Parse modFile b = Ok m →
  ModDirectPackage fs modFile r
  = ModDirectPackage_range (File.Syntax m) (File.Require_ m).
Proof. intros Hread Hparse. unfold ModDirectPackage. by rewrite Hread, Hparse. Qed.

Lemma readAllFileOrReader_file (fs : gmap string bytes) (modFile : string) (b : bytes) :
  fs !! modFile = Some b → readAllFileOrReader fs modFile None = Ok b.
Proof. intros H. unfold readAllFileOrReader, os.ReadFile. by rewrite H. Qed.

(** The loop of AddMetaToMod handles the first direct requirement and
    returns; with none it reports an empty module. *)
Lemma AddMetaToMod_range_first (K : os.faults) (f : os.File)
    (modFile pkg : string) (m : File.t) (rs : list Require_.t) :
  AddMetaToMod_range K f modFile pkg m rs
  = match first_direct rs with
    | None => (f, Return (Some (New ("empty module found in " +:+ modFile))))
    | Some r =>
        match add_subpackage m r pkg with
        | Panic p => (f, Panic p)
        | Return (Failed err) => (f, Return (Some err))
        | Return (Ok m') => flush K f m'
        end
    end.
Proof.
  induction rs as [|r rs IH]; cbn [AddMetaToMod_range first_direct]; [done|].
  by destruct (Require_.Indirect r).
Qed.

Lemma write_at_nil (b : bytes) : os.write_at [] 0 b = b.
Proof. unfold os.write_at. cbn. by rewrite drop_nil, app_nil_r. Qed.

(** A flush that reports no error has left in the file what Format made
    of the tree. *)
Lemma flush_success (K : os.faults) (f f' : os.File) (m : File.t) :
  flush K f m = (f', Return None) →
  ∃ newB, Format m = Ok newB ∧ os.data f' = newB.
Proof.
  unfold flush, os.Truncate, os.Seek, os.Write.
  destruct (Format m) as [newB|err]; [|done].
  destruct (os.fail_Truncate K); [done|].
  destruct (os.fail_Seek K); [done|].
  destruct (os.fail_Write K) as [[n err]|]; [done|].
  intros [= <-]. exists newB. split; [done|].
  cbn. rewrite take_0. apply write_at_nil.
Qed.

Lemma flush_no_faults (f : os.File) (m : File.t) (newB : bytes) :
  Format m = Ok newB →
  flush os.no_faults f m = (os.mkFile (os.name f) newB (length newB), Return None).
Proof.
  intros HF. unfold flush. rewrite HF.
  cbn [os.Truncate os.Seek os.Write os.no_faults os.fail_Truncate os.fail_Seek
       os.fail_Write os.name os.data os.offset].
  by rewrite take_0, write_at_nil.
Qed.

(** The module line of a tree that has one can take the meta marker. *)
Lemma with_meta_Some (m : File.t) (cs : list Comment.t) :
  module_Suffix m = Some cs →
  ∃ md ln m1,
    File.Module_ m = Some md ∧
    File.Syntax m !! Module_.Syntax md = Some ln ∧ Line.Suffix ln = cs ∧
    with_meta m = Some m1 ∧
    append_Suffix m (Module_.Syntax md) (Comment.mk metaComment true) = Some m1.
Proof.
  unfold module_Suffix, with_meta.
  destruct (File.Module_ m) as [md|]; cbn; [|done].
  destruct (File.Syntax m !! Module_.Syntax md) as [ln|] eqn:Hln; cbn; [|done].
  intros [= <-]. exists md, ln. unfold append_Suffix. rewrite Hln. by eexists.
Qed.

(** AddMetaToMod once the file is open, read and parsed, on a tree
    with a module line. *)
Lemma AddMetaToMod_opened_parsed (K : os.faults) (fs : gmap string bytes)
    (modFile pkg : string) (b : bytes) (m : File.t) (cs : list Comment.t) :
  os.fail_ReadAll K = None →
  Parse modFile b = Ok m →
  module_Suffix m = Some cs →
  AddMetaToMod_opened K fs (os.mkFile modFile b 0) modFile pkg
  = let f1 := os.mkFile modFile b (length b) in
    if ModHasMeta_range cs
    then (f1, Return (Some (New ("module " +:+ modFile +:+ " has already all meta"))))
    else match with_meta m with
         | Some m1 => AddMetaToMod_range K f1 modFile pkg m1 (File.Require_ m1)
         | None => (f1, Panic nil_dereference)
         end.
Proof.
  intros Hread Hparse Hcs. unfold AddMetaToMod_opened, os.ReadAll.
  rewrite Hread. cbn [os.name os.data os.offset]. rewrite drop_0.
  rewrite (ModHasMeta_parsed fs modFile (Some (NewReader b)) b m) by done.
  rewrite Hcs. destruct (ModHasMeta_range cs); [done|].
  rewrite Hparse.
  destruct (with_meta_Some m cs Hcs) as (md & ln & m1 & -> & _ & _ & -> & ->).
  done.
Qed.

Lemma AddMetaToMod_open (K : os.faults) (fs : gmap string bytes)
    (modFile pkg : string) (b : bytes) :
  os.fail_OpenFile K = None →
  fs !! modFile = Some b →
  AddMetaToMod K fs modFile pkg
  = let '(f', r) := AddMetaToMod_opened K fs (os.mkFile modFile b 0) modFile pkg in
    (<[modFile := os.data f']> fs, deferred_Close (os.fail_Close K) r).
Proof.
  intros Hopen Hfs. unfold AddMetaToMod, os.OpenFile, os.Close.
  by rewrite Hopen, Hfs.
Qed.

(** The deferred close keeps the cause of an error and never turns an
    error into a success. *)
Lemma deferred_Close_error (cerr : option error) (e : error) :
  ∃ e', deferred_Close cerr (Return (Some e)) = Return (Some e') ∧
        Cause e' = Cause e ∧ (cerr = None → e' = e).
Proof.
  destruct cerr as [ce|]; cbn; eexists; split_and!; try done.
Qed.

Lemma deferred_Close_success (cerr : option error) (r : go (option error)) :
  deferred_Close cerr r = Return None → cerr = None ∧ r = Return None.
Proof.
  destruct r as [[e|]|p]; destruct cerr as [ce|]; cbn; done.
Qed.

(** What a successful AddMetaToMod has done. *)
Lemma AddMetaToMod_success (K : os.faults) (fs fs' : gmap string bytes)
    (modFile pkg : string) :
  AddMetaToMod K fs modFile pkg = (fs', Return None) →
  ∃ b m cs m2 newB,
    fs !! modFile = Some b ∧ Parse modFile b = Ok m ∧
    module_Suffix m = Some cs ∧ ModHasMeta_range cs = false ∧
    annotated m pkg = Some m2 ∧ Format m2 = Ok newB ∧
    fs' = <[modFile := newB]> fs.
Proof.
  unfold AddMetaToMod, os.OpenFile.
  destruct (os.fail_OpenFile K); [done|].
  destruct (fs !! modFile) as [b|] eqn:Hfs; [|done].
  destruct (AddMetaToMod_opened K fs (os.mkFile modFile b 0) modFile pkg)
    as [f' r] eqn:Hop.
  intros [= <- [_ ->]%deferred_Close_success].
  revert Hop. unfold AddMetaToMod_opened, os.ReadAll.
  destruct (os.fail_ReadAll K); [done|].
  cbn [os.name os.data os.offset]. rewrite drop_0.
  unfold ModHasMeta, readAllFileOrReader, NewReader.
  destruct (Parse modFile b) as [m|err] eqn:Hparse; [|done].
  destruct (File.Module_ m) as [md|] eqn:Hmd; [|done].
  destruct (File.Syntax m !! Module_.Syntax md) as [ln|] eqn:Hln; [|done].
  destruct (ModHasMeta_range (Line.Suffix ln)) eqn:Hmeta; [done|].
  destruct (append_Suffix m (Module_.Syntax md) (Comment.mk metaComment true))
    as [m1|] eqn:Hm1; [|done].
  rewrite AddMetaToMod_range_first.
  destruct (first_direct (File.Require_ m1)) as [r|] eqn:Hr; [|done].
  destruct (add_subpackage m1 r pkg) as [[m2|err]|p] eqn:Hsub; [|done..].
  intros (newB & HF & Hdata)%flush_success.
  exists b, m, (Line.Suffix ln), m2, newB. split_and!; try done.
  - unfold module_Suffix. rewrite Hmd. cbn. by rewrite Hln.
  - unfold annotated, with_meta. rewrite Hmd. cbn. rewrite Hm1. cbn.
    rewrite Hr. cbn. by rewrite Hsub.
  - by rewrite Hdata.
Qed.

End Operations.

(** ** The annotated tree *)

Lemma own_lines_module_ne (m : File.t) (md : Module_.t) (r : Require_.t) :
  own_lines m → File.Module_ m = Some md → r ∈ File.Require_ m →
  Module_.Syntax md ≠ Require_.Syntax r.
Proof.
  unfold own_lines, statement_ptrs. intros Hnd Hmd Hr Heq.
  rewrite Hmd in Hnd. cbn in Hnd. apply NoDup_cons in Hnd as [Hnotin _].
  apply Hnotin. rewrite Heq. by apply list_elem_of_fmap_2.
Qed.

Lemma own_lines_require_ne (m : File.t) (pre post : list Require_.t)
    (r r' : Require_.t) :
  own_lines m → File.Require_ m = pre ++ r :: post → r' ∈ pre ++ post →
  Require_.Syntax r ≠ Require_.Syntax r'.
Proof.
  unfold own_lines, statement_ptrs. intros Hnd Hrs Hr' Heq.
  apply NoDup_app in Hnd as (_ & _ & Hnd).
  rewrite Hrs, fmap_app, fmap_cons in Hnd.
  apply NoDup_app in Hnd as (_ & Hdisj & Hnd).
  apply NoDup_cons in Hnd as [Hnotin _].
  apply elem_of_app in Hr' as [Hr'|Hr'].
  - apply (Hdisj (Require_.Syntax r')); [by apply list_elem_of_fmap_2|].
    rewrite <- Heq. by left.
  - apply Hnotin. rewrite Heq. by apply list_elem_of_fmap_2.
Qed.

(** How the annotated tree is made: the marker goes on the module line,
    then the sub-package comment on the line of the first direct
    requirement unless the package is the module itself. *)
Lemma annotated_Some (m m2 : File.t) (pkg : string) (r : Require_.t) :
  first_direct (File.Require_ m) = Some r →
  annotated m pkg = Some m2 →
  ∃ md m1,
    File.Module_ m = Some md ∧
    append_Suffix m (Module_.Syntax md) (Comment.mk metaComment true) = Some m1 ∧
    ((Version.Path (Require_.Mod r) = pkg ∧ m2 = m1) ∨
     (Version.Path (Require_.Mod r) ≠ pkg ∧
      ∃ sub, filepath.Rel (Version.Path (Require_.Mod r)) pkg = Ok sub ∧
             append_Suffix m1 (Require_.Syntax r) (Comment.mk ("// " +:+ sub) true)
             = Some m2)).
Proof.
  intros Hr. unfold annotated, with_meta.
  destruct (File.Module_ m) as [md|] eqn:Hmd; cbn; [|done].
  destruct (append_Suffix m (Module_.Syntax md) (Comment.mk metaComment true))
    as [m1|] eqn:Hm1; cbn; [|done].
  rewrite (append_Suffix_Require _ _ _ _ Hm1), Hr. cbn.
  unfold add_subpackage. case_decide as Hpkg.
  - destruct (filepath.Rel (Version.Path (Require_.Mod r)) pkg) as [sub|err] eqn:Hrel;
      [|done].
    destruct (append_Suffix m1 (Require_.Syntax r) (Comment.mk ("// " +:+ sub) true))
      as [m2'|] eqn:Hm2; [|done].
    intros [= <-]. exists md, m1. split_and!; [done..|].
    right. split; [done|]. by exists sub.
  - intros [= <-]. exists md, m1.
    split_and!; [done..|]. by left.
Qed.

(** The annotated tree differs from the parsed one on two lines at most:
    the module line and the line of the first direct requirement. *)
Lemma annotated_frame (m m2 : File.t) (pkg : string) (r : Require_.t) :
  first_direct (File.Require_ m) = Some r →
  annotated m pkg = Some m2 →
  ∃ md, File.Module_ m = Some md ∧
        File.Module_ m2 = Some md ∧ File.Require_ m2 = File.Require_ m ∧
        ∀ q, q ≠ Module_.Syntax md → q ≠ Require_.Syntax r →
             File.Syntax m2 !! q = File.Syntax m !! q.
Proof.
  intros Hr Hann.
  destruct (annotated_Some m m2 pkg r Hr Hann)
    as (md & m1 & Hmd & Hm1 & [[_ ->]|(_ & sub & _ & Hm2)]); exists md.
  - split_and!; [done| |by eapply append_Suffix_Require|].
    + by rewrite (append_Suffix_Module _ _ _ _ Hm1).
    + intros q Hq _. by rewrite (append_Suffix_lookup_ne _ _ _ _ _ Hm1) by done.
  - split_and!; [done| | |].
    + by rewrite (append_Suffix_Module _ _ _ _ Hm2), (append_Suffix_Module _ _ _ _ Hm1).
    + by rewrite (append_Suffix_Require _ _ _ _ Hm2), (append_Suffix_Require _ _ _ _ Hm1).
    + intros q Hq1 Hq2.
      rewrite (append_Suffix_lookup_ne _ _ _ _ _ Hm2) by done.
      by rewrite (append_Suffix_lookup_ne _ _ _ _ _ Hm1) by done.
Qed.

(** The suffix comments of the two lines in the annotated tree: the
    marker at the end of the module line's, and the sub-package comment
    at the end of the requirement's when the package is not the module
    itself. *)
Lemma annotated_Suffix (m m2 : File.t) (pkg : string) (r : Require_.t)
    (sr : list Comment.t) :
  first_direct (File.Require_ m) = Some r → own_lines m →
  require_Suffix m r = Some sr →
  annotated m pkg = Some m2 →
  ∃ cs,
    module_Suffix m = Some cs ∧
    module_Suffix m2 = Some (cs ++ [Comment.mk metaComment true]) ∧
    ((Version.Path (Require_.Mod r) = pkg ∧ require_Suffix m2 r = Some sr ∧
      with_meta m = Some m2) ∨
     (Version.Path (Require_.Mod r) ≠ pkg ∧
      ∃ sub, filepath.Rel (Version.Path (Require_.Mod r)) pkg = Ok sub ∧
             require_Suffix m2 r = Some (sr ++ [Comment.mk ("// " +:+ sub) true]))).
Proof.
  intros Hr Hown Hsr Hann.
  destruct (annotated_Some m m2 pkg r Hr Hann) as (md & m1 & Hmd & Hm1 & Hcase).
  destruct (append_Suffix_lookup_eq _ _ _ _ Hm1) as (ln & Hln & Hln1).
  pose proof (own_lines_module_ne m md r Hown Hmd (first_direct_elem_of _ _ Hr)) as Hne.
  assert (module_Suffix m1 = Some (Line.Suffix ln ++ [Comment.mk metaComment true])) as Hcs1.
  { unfold module_Suffix. rewrite (append_Suffix_Module _ _ _ _ Hm1), Hmd. cbn.
    by rewrite Hln1. }
  assert (require_Suffix m1 r = Some sr) as Hsr1.
  { unfold require_Suffix in *.
    by rewrite (append_Suffix_lookup_ne _ _ _ _ _ Hm1) by done. }
  exists (Line.Suffix ln). split.
  { unfold module_Suffix. rewrite Hmd. cbn. by rewrite Hln. }
  destruct Hcase as [[Hpkg ->]|(Hpkg & sub & Hrel & Hm2)].
  - split; [done|]. left. split_and!; [done..|].
    unfold with_meta. rewrite Hmd. by cbn.
  - destruct (append_Suffix_lookup_eq _ _ _ _ Hm2) as (lr & Hlr & Hlr2).
    split.
    + unfold module_Suffix.
      rewrite (append_Suffix_Module _ _ _ _ Hm2), (append_Suffix_Module _ _ _ _ Hm1), Hmd.
      cbn. rewrite (append_Suffix_lookup_ne _ _ _ _ _ Hm2) by done. by rewrite Hln1.
    + right. split; [done|]. exists sub. split; [done|].
      unfold require_Suffix in *. rewrite Hlr in Hsr1. rewrite Hlr2.
      cbn in *. congruence.
Qed.

(** ** The annotator's contract *)

Section Contract.

Context {M : Modfile}.

(** C5: on a manifest that parses, ModHasMeta returns true exactly when
    one of the suffix comments of the module line is the meta marker
    itself; a comment that only contains the marker, or a marker on
    another line, does not count. *)
Theorem ModHasMeta_true_iff (fs : gmap string bytes) (modFile : string)
    (rd : option Reader) (b : bytes) (m : File.t) :
  readAllFileOrReader fs modFile rd = Ok b →
  Parse modFile b = Ok m →
  ModHasMeta fs modFile rd = Return (true, None) ↔
  ∃ cs c, module_Suffix m = Some cs ∧ c ∈ cs ∧ Comment.Token c = metaComment.
Proof.
  intros Hread Hparse. rewrite (ModHasMeta_parsed fs modFile rd b m) by done.
  destruct (module_Suffix m) as [cs|].
  - split.
    + intros [= Hmeta]. apply ModHasMeta_range_true in Hmeta as (c & Hc & Htok).
      by exists cs, c.
    + intros (cs' & c & [= <-] & Hc & Htok).
      do 2 f_equal. apply ModHasMeta_range_true. by exists c.
  - split; [done|]. by intros (cs & c & ? & _).
Qed.

(** C10: ModDirectPackage decodes the sub-package from the first suffix
    comment of the first direct requirement alone, as the token from
    its fourth byte on, and panics on a token shorter than three
    bytes. *)
Theorem ModDirectPackage_first_suffix (fs : gmap string bytes) (modFile : string)
    (rd : option Reader) (b : bytes) (m : File.t) (r : Require_.t)
    (c : Comment.t) (cs : list Comment.t) :
  readAllFileOrReader fs modFile rd = Ok b →
  Parse modFile b = Ok m →
  first_direct (File.Require_ m) = Some r →
  require_Suffix m r = Some (c :: cs) →
  ModDirectPackage fs modFile rd
  = if decide (String.length (Comment.Token c) < 3)
    then Panic slice_out_of_range
    else Return (path.Join [Version.Path (Require_.Mod r);
                            slice_from 3 (Comment.Token c)], None).
Proof.
  intros Hread Hparse Hr Hsuffix.
  rewrite (ModDirectPackage_parsed fs modFile rd b m) by done.
  rewrite ModDirectPackage_range_first, Hr.
  unfold require_Suffix in Hsuffix.
  destruct (File.Syntax m !! Require_.Syntax r) as [ln|]; [|done].
  cbn in Hsuffix. injection Hsuffix as Hln. by rewrite Hln.
Qed.

(** C4: bytes the parser refuses make ModDirectPackage and ModHasMeta
    return the parser's error (the latter wrapped as "failed to
    parse"), and make AddMetaToMod return an error whose cause is the
    parser's, with the file as it was; none of them panics or returns
    without an error. *)
Theorem parse_error_reported (K : os.faults) (fs : gmap string bytes)
    (modFile pkg : string) (rd : option Reader) (b : bytes) (e : error) :
  Parse modFile b = Failed e →
  (readAllFileOrReader fs modFile rd = Ok b →
     ModDirectPackage fs modFile rd = Return ("", Some e) ∧
     ModHasMeta fs modFile rd = Return (false, Some (Wrap e "failed to parse"))) ∧
  (fs !! modFile = Some b →
   os.fail_OpenFile K = None → os.fail_ReadAll K = None →
     ∃ err, AddMetaToMod K fs modFile pkg = (fs, Return (Some err)) ∧
            Cause err = Cause e ∧
            (os.fail_Close K = None → err = Wrap e "failed to parse")).
Proof.
  intros Hparse. split.
  - intros Hread. unfold ModDirectPackage, ModHasMeta. by rewrite Hread, Hparse.
  - intros Hfs Hopen Hreadall.
    rewrite (AddMetaToMod_open K fs modFile pkg b) by done.
    unfold AddMetaToMod_opened, os.ReadAll. rewrite Hreadall.
    cbn [os.name os.data os.offset]. rewrite drop_0.
    unfold ModHasMeta, readAllFileOrReader, NewReader. rewrite Hparse.
    cbn [os.data]. rewrite insert_id by done.
    destruct (deferred_Close_error (os.fail_Close K) (Wrap e "failed to parse"))
      as (e' & -> & Hcause & Hclose).
    by exists e'.
Qed.

(** C2: on a manifest whose module line carries the meta marker,
    AddMetaToMod leaves the file system as it was, whatever fails; and
    once the file is open and read, it returns the error "module ... has
    already all meta" (with the close error wrapped around it when the
    close fails too). *)
Theorem AddMetaToMod_already_annotated (K : os.faults) (fs : gmap string bytes)
    (modFile pkg : string) (b : bytes) (m : File.t)
    (cs : list Comment.t) (c : Comment.t) :
  fs !! modFile = Some b →
  Parse modFile b = Ok m →
  module_Suffix m = Some cs → c ∈ cs → Comment.Token c = metaComment →
  (AddMetaToMod K fs modFile pkg).1 = fs ∧
  (os.fail_OpenFile K = None → os.fail_ReadAll K = None →
     ∃ err, (AddMetaToMod K fs modFile pkg).2 = Return (Some err) ∧
            Cause err = New ("module " +:+ modFile +:+ " has already all meta") ∧
            (os.fail_Close K = None →
             err = New ("module " +:+ modFile +:+ " has already all meta"))).
Proof.
  intros Hfs Hparse Hcs Hc Htok.
  assert (ModHasMeta_range cs = true) as Hmeta.
  { apply ModHasMeta_range_true. by exists c. }
  destruct (os.fail_OpenFile K) as [eo|] eqn:Hopen.
  { split; [|done]. unfold AddMetaToMod, os.OpenFile. by rewrite Hopen. }
  rewrite (AddMetaToMod_open K fs modFile pkg b) by done.
  destruct (os.fail_ReadAll K) as [er|] eqn:Hreadall.
  { split; [|done]. unfold AddMetaToMod_opened, os.ReadAll. rewrite Hreadall.
    cbn. by rewrite insert_id. }
  rewrite (AddMetaToMod_opened_parsed K fs modFile pkg b m cs) by done.
  rewrite Hmeta. cbn [fst snd os.data]. split; [by rewrite insert_id|].
  intros _ _.
  destruct (deferred_Close_error (os.fail_Close K)
              (New ("module " +:+ modFile +:+ " has already all meta")))
    as (e' & -> & Hcause & Hclose).
  by exists e'.
Qed.

(** C3, amended: on a manifest that parses and has no direct requirement,
    ModDirectPackage returns the empty string and no error; and when the
    manifest has a module line without the meta marker, AddMetaToMod,
    once the file is open and read, returns the error "empty module
    found in ..." and leaves the file as it was. *)
Theorem no_direct_requirement (K : os.faults) (fs : gmap string bytes)
    (modFile pkg : string) (rd : option Reader) (b : bytes) (m : File.t) :
  Parse modFile b = Ok m →
  Forall (λ r, Require_.Indirect r = true) (File.Require_ m) →
  (readAllFileOrReader fs modFile rd = Ok b →
     ModDirectPackage fs modFile rd = Return ("", None)) ∧
  (∀ cs, fs !! modFile = Some b →
         module_Suffix m = Some cs → ModHasMeta_range cs = false →
         os.fail_OpenFile K = None → os.fail_ReadAll K = None →
     ∃ err, AddMetaToMod K fs modFile pkg = (fs, Return (Some err)) ∧
            Cause err = New ("empty module found in " +:+ modFile) ∧
            (os.fail_Close K = None →
             err = New ("empty module found in " +:+ modFile))).
Proof.
  intros Hparse Hind. apply first_direct_None in Hind. split.
  - intros Hread. rewrite (ModDirectPackage_parsed fs modFile rd b m) by done.
    by rewrite ModDirectPackage_range_first, Hind.
  - intros cs Hfs Hcs Hmeta Hopen Hreadall.
    rewrite (AddMetaToMod_open K fs modFile pkg b) by done.
    rewrite (AddMetaToMod_opened_parsed K fs modFile pkg b m cs) by done.
    rewrite Hmeta. cbn zeta.
    destruct (with_meta_Some m cs Hcs) as (md & ln & m1 & _ & _ & _ & -> & Hm1).
    rewrite AddMetaToMod_range_first, (append_Suffix_Require _ _ _ _ Hm1), Hind.
    cbn [os.data]. rewrite insert_id by done.
    destruct (deferred_Close_error (os.fail_Close K)
                (New ("empty module found in " +:+ modFile)))
      as (e' & -> & Hcause & Hclose).
    by exists e'.
Qed.

End Contract.

Section Annotation.

Context {M : Modfile}.

Lemma append_assoc (s1 s2 s3 : string) : (s1 +:+ s2) +:+ s3 = s1 +:+ s2 +:+ s3.
Proof.
  induction s1 as [|c s1 IH]; [done|].
  change (String c ((s1 +:+ s2) +:+ s3) = String c (s1 +:+ s2 +:+ s3)).
  by rewrite IH.
Qed.

Lemma suffixed_sub (p sub : string) :
  suffixed p [Comment.mk ("// " +:+ sub) true] = Return (path.Join [p; sub], None).
Proof.
  unfold suffixed. cbn [Comment.Token].
  rewrite decide_False by (simpl; lia).
  pose proof (slice_from_prefix "// " sub) as Hslice.
  change (String.length "// ") with 3 in Hslice. by rewrite Hslice.
Qed.

(** Reading the rewritten file back: ModDirectPackage sees the first
    direct requirement of the tree the parser returns for it. *)
Lemma ModDirectPackage_written (fs : gmap string bytes) (modFile : string)
    (newB : bytes) (m2 : File.t) (r : Require_.t) (sr : list Comment.t) :
  Parse modFile newB = Ok m2 →
  first_direct (File.Require_ m2) = Some r →
  require_Suffix m2 r = Some sr →
  ModDirectPackage (<[modFile := newB]> fs) modFile None
  = suffixed (Version.Path (Require_.Mod r)) sr.
Proof.
  intros Hparse Hr Hsr.
  rewrite (ModDirectPackage_parsed _ modFile None newB m2);
    [|apply readAllFileOrReader_file, lookup_insert_eq|done].
  rewrite ModDirectPackage_range_first, Hr.
  unfold require_Suffix in Hsr.
  destruct (File.Syntax m2 !! Require_.Syntax r) as [ln|]; [|done].
  cbn in Hsr. by injection Hsr as ->.
Qed.



(** C6, amended: let the first direct requirement have no suffix comment
    on its line, and let the parser read back the tree with the marker
    from what the formatter writes for it.  When the package is the
    module of that requirement, a successful AddMetaToMod has written
    the tree with the marker on the module line and nothing else added,
    the requirement's line still has no suffix comment, and
    ModDirectPackage returns the module path from the rewritten
    file. *)
Theorem AddMetaToMod_module_itself (K : os.faults) (fs fs' : gmap string bytes)
    (modFile : string) (b : bytes) (m : File.t) (r : Require_.t) :
  fs !! modFile = Some b →
  Parse modFile b = Ok m →
  first_direct (File.Require_ m) = Some r →
  require_Suffix m r = Some [] →
  own_lines m →
  (∀ m1, with_meta m = Some m1 → round_trips modFile m1) →
  AddMetaToMod K fs modFile (Version.Path (Require_.Mod r)) = (fs', Return None) →
  ∃ m1 newB,
    with_meta m = Some m1 ∧ Format m1 = Ok newB ∧
    fs' = <[modFile := newB]> fs ∧
    require_Suffix m1 r = Some [] ∧
    ModDirectPackage fs' modFile None
    = Return (Version.Path (Require_.Mod r), None).
Proof.
  intros Hfs Hparse Hr Hsr Hown Hrt Hok.
  destruct (AddMetaToMod_success K fs fs' modFile _ Hok)
    as (b' & m' & cs & m2 & newB & Hfs' & Hparse' & _ & _ & Hann & HF & ->).
  assert (b' = b) as -> by congruence. assert (m' = m) as -> by congruence.
  destruct (annotated_frame m m2 _ r Hr Hann) as (md & _ & _ & Hreq & _).
  destruct (annotated_Suffix m m2 _ r [] Hr Hown Hsr Hann)
    as (cs' & _ & _ & [(_ & Hsr2 & Hmeta)|(Hne & _)]); [|done].
  pose proof (Hrt m2 Hmeta newB HF) as Hparse2.
  exists m2, newB. split_and!; try done.
  rewrite <- Hreq in Hr.
  by rewrite (ModDirectPackage_written fs modFile newB m2 r []) by done.
Qed.

(** C7, amended: let the first direct requirement be of module
    example.com/foo with no suffix comment on its line, and let the
    parser read back the annotated tree from what the formatter writes
    for it.  After a successful AddMetaToMod for example.com/foo/sub/pkg
    the requirement's line carries the one suffix comment "// sub/pkg",
    whose token from its fourth byte on is sub/pkg, and ModDirectPackage
    returns example.com/foo/sub/pkg from the rewritten file. *)
Theorem AddMetaToMod_sub_pkg (K : os.faults) (fs fs' : gmap string bytes)
    (modFile : string) (b : bytes) (m : File.t) (r : Require_.t) :
  fs !! modFile = Some b →
  Parse modFile b = Ok m →
  first_direct (File.Require_ m) = Some r →
  Version.Path (Require_.Mod r) = "example.com/foo" →
  require_Suffix m r = Some [] →
  own_lines m →
  (∀ m2, annotated m "example.com/foo/sub/pkg" = Some m2 → round_trips modFile m2) →
  AddMetaToMod K fs modFile "example.com/foo/sub/pkg" = (fs', Return None) →
  ∃ m2 newB,
    annotated m "example.com/foo/sub/pkg" = Some m2 ∧ Format m2 = Ok newB ∧
    fs' = <[modFile := newB]> fs ∧
    require_Suffix m2 r = Some [Comment.mk "// sub/pkg" true] ∧
    slice_from 3 "// sub/pkg" = "sub/pkg" ∧
    ModDirectPackage fs' modFile None = Return ("example.com/foo/sub/pkg", None).
Proof.
  intros Hfs Hparse Hr Hpath Hsr Hown Hrt Hok.
  destruct (AddMetaToMod_success K fs fs' modFile _ Hok)
    as (b' & m' & cs & m2 & newB & Hfs' & Hparse' & _ & _ & Hann & HF & ->).
  assert (b' = b) as -> by congruence. assert (m' = m) as -> by congruence.
  pose proof (Hrt m2 Hann newB HF) as Hparse2.
  destruct (annotated_frame m m2 _ r Hr Hann) as (md & _ & _ & Hreq & _).
  destruct (annotated_Suffix m m2 _ r [] Hr Hown Hsr Hann)
    as (cs' & _ & _ & [(Heq & _)|(_ & sub & Hrel & Hsr2)]).
  { by rewrite Hpath in Heq. }
  rewrite Hpath in Hrel.
  assert (sub = "sub/pkg") as -> by (vm_compute in Hrel; congruence).
  exists m2, newB. split_and!; try done.
  rewrite <- Hreq in Hr.
  rewrite (ModDirectPackage_written fs modFile newB m2 r _ Hparse2 Hr Hsr2).
  cbn [app]. rewrite suffixed_sub, Hpath. by vm_compute.
Qed.

(** C8: on a manifest with a direct requirement, a successful
    AddMetaToMod has written the annotated tree (which the parser reads
    back from the file when the tree round-trips), whose requirements
    are those of the parsed tree, path, version, indirect flag and line
    pointer, and in which the line of every requirement other than the
    first direct one is as it was; and ModDirectPackage returns what
    the first direct requirement alone gives, whatever stands before
    and after it. *)
Theorem first_direct_only (K : os.faults) (fs fs' : gmap string bytes)
    (modFile pkg : string) (rd : option Reader) (b : bytes) (m : File.t)
    (pre post : list Require_.t) (r : Require_.t) :
  Parse modFile b = Ok m →
  File.Require_ m = pre ++ r :: post →
  Forall (λ r', Require_.Indirect r' = true) pre →
  Require_.Indirect r = false →
  own_lines m →
  (fs !! modFile = Some b →
   AddMetaToMod K fs modFile pkg = (fs', Return None) →
   ∃ m2 newB,
     annotated m pkg = Some m2 ∧ Format m2 = Ok newB ∧
     fs' = <[modFile := newB]> fs ∧
     (round_trips modFile m2 → Parse modFile newB = Ok m2) ∧
     File.Require_ m2 = File.Require_ m ∧
     ∀ r', r' ∈ pre ++ post →
           File.Syntax m2 !! Require_.Syntax r' = File.Syntax m !! Require_.Syntax r') ∧
  (readAllFileOrReader fs modFile rd = Ok b →
   ModDirectPackage fs modFile rd = ModDirectPackage_range (File.Syntax m) [r]).
Proof.
  intros Hparse Hrs Hpre Hdirect Hown.
  assert (first_direct (File.Require_ m) = Some r) as Hr.
  { apply first_direct_Some. by exists pre, post. }
  split.
  - intros Hfs Hok.
    destruct (AddMetaToMod_success K fs fs' modFile pkg Hok)
      as (b' & m' & cs & m2 & newB & Hfs' & Hparse' & _ & _ & Hann & HF & ->).
    assert (b' = b) as -> by congruence. assert (m' = m) as -> by congruence.
    destruct (annotated_frame m m2 pkg r Hr Hann) as (md & Hmd & _ & Hreq & Hframe).
    exists m2, newB. split_and!; try done.
    { intros Hrt. by apply Hrt. }
    intros r' Hr'. apply Hframe.
    + intros Heq. eapply (own_lines_module_ne m md r'); [done..| |done].
      rewrite Hrs. apply elem_of_app in Hr' as [?|?]; apply elem_of_app;
        [by left|right; by right].
    + intros Heq. by eapply (own_lines_require_ne m pre post r r').
  - intros Hread. rewrite (ModDirectPackage_parsed fs modFile rd b m) by done.
    rewrite !ModDirectPackage_range_first, Hr. cbn [first_direct].
    by rewrite Hdirect.
Qed.

(** What Close will report has no part in what happens before it. *)
Lemma AddMetaToMod_opened_closing (K : os.faults) (cerr : option error)
    (fs : gmap string bytes) (f : os.File) (modFile pkg : string) :
  AddMetaToMod_opened (os.closing K cerr) fs f modFile pkg
  = AddMetaToMod_opened K fs f modFile pkg.
Proof.
  unfold AddMetaToMod_opened, os.ReadAll. cbn [os.closing os.fail_ReadAll].
  destruct (os.fail_ReadAll K); [done|].
  destruct (ModHasMeta fs modFile (Some (NewReader (drop (os.offset f) (os.data f)))))
    as [[[|] [e|]]|p]; try done.
  destruct (Parse modFile (drop (os.offset f) (os.data f))) as [m|e]; [|done].
  destruct (File.Module_ m) as [md|]; [|done].
  destruct (append_Suffix m (Module_.Syntax md) (Comment.mk metaComment true))
    as [m1|]; [|done].
  rewrite !AddMetaToMod_range_first.
  destruct (first_direct (File.Require_ m1)) as [r|]; [|done].
  by destruct (add_subpackage m1 r pkg) as [[m2|e]|p].
Qed.

(** C9: once the file is open, let [r] be what AddMetaToMod did before
    the deferred close.  When the close succeeds, [r] is the result.
    When it fails with [cerr], a success becomes the error [cerr], and
    an error [e] becomes [e] wrapped with the message of [cerr]: the
    cause of the result is the cause of [e] and its message holds both
    messages. *)
Theorem close_error_reported (K : os.faults) (fs : gmap string bytes)
    (modFile pkg : string) (b : bytes) (f' : os.File) (r : go (option error)) :
  os.fail_OpenFile K = None →
  fs !! modFile = Some b →
  AddMetaToMod_opened K fs (os.mkFile modFile b 0) modFile pkg = (f', r) →
  AddMetaToMod (os.closing K None) fs modFile pkg
  = (<[modFile := os.data f']> fs, r) ∧
  ∀ cerr,
    AddMetaToMod (os.closing K (Some cerr)) fs modFile pkg
    = (<[modFile := os.data f']> fs,
       match r with
       | Return None => Return (Some cerr)
       | Return (Some e) =>
           Return (Some (Wrap e ("additionally error on close: " +:+ Error cerr)))
       | Panic p => Panic p
       end) ∧
    ∀ e, Cause (Wrap e ("additionally error on close: " +:+ Error cerr)) = Cause e ∧
         Error (Wrap e ("additionally error on close: " +:+ Error cerr))
         = "additionally error on close: " +:+ Error cerr +:+ ": " +:+ Error e.
Proof.
  intros Hopen Hfs Hbody. split.
  - rewrite (AddMetaToMod_open _ fs modFile pkg b) by done.
    rewrite AddMetaToMod_opened_closing, Hbody. cbn.
    by destruct r as [[e|]|p].
  - intros cerr. split.
    + rewrite (AddMetaToMod_open _ fs modFile pkg b) by done.
      rewrite AddMetaToMod_opened_closing, Hbody. cbn.
      by destruct r as [[e|]|p].
    + intros e. split; [done|]. cbn [Error].
      apply append_assoc.
Qed.

End Annotation.

(** ** Clean and Rel on a target that is not clean *)

Lemma head_join_path_sep_free (l : list bytes) :
  Forall (λ e, e ≠ []) l → Forall (λ e, Separator ∉ e) l →
  head (join_path l) ≠ Some Separator.
Proof.
  intros Hne Hfree. destruct l as [|e l]; [done|].
  apply Forall_cons in Hne as [He _]. apply Forall_cons in Hfree as [Hfree _].
  destruct e as [|x e]; [done|].
  assert (head (join_path ((x :: e) :: l)) = Some x) as ->.
  { unfold join_path. by destruct l. }
  intros [= ->]. apply Hfree. by left.
Qed.

(** Clean does not root a path. *)
Lemma Clean_bytes_unrooted_head (p : bytes) :
  head p ≠ Some Separator → head (path.Clean_bytes p) ≠ Some Separator.
Proof.
  intros Hhead. destruct (decide (p = [])) as [->|Hne]; [done|].
  rewrite Clean_bytes_unrooted by done.
  destruct (Clean_fold_climbed (elements p) 0 [])
    as (k & es & Hes & ->); [apply Split_Forall_sep_free|done|].
  unfold finish, climbed. cbn [fst]. case_decide; [done|].
  apply head_join_path_sep_free.
  - by apply climb_nonempty_elems.
  - apply Forall_app. split; [apply replicate_dotdot_sep_free|by apply good_sep_free].
Qed.

(** Rel finds no way between a rooted path and one that is not. *)
Lemma Rel_bytes_rooted_target (bp t : bytes) :
  head bp ≠ Some Separator → head t = Some Separator →
  filepath.Rel_bytes bp t = None.
Proof.
  intros Hb%Clean_bytes_unrooted_head Ht%Clean_bytes_rooted.
  unfold filepath.Rel_bytes.
  rewrite decide_False by (intros Heq; by rewrite Heq in Ht).
  cbn zeta.
  rewrite (bool_decide_eq_true_2 (head (path.Clean_bytes t) = Some Separator)) by done.
  rewrite bool_decide_eq_false_2; [by rewrite decide_True|].
  by case_decide.
Qed.



Lemma Rel_same (p : string) : filepath.Rel p p = Ok ".".
Proof. unfold filepath.Rel, filepath.Rel_bytes. by rewrite decide_True. Qed.

(** ** The annotated tree, whatever the pointers *)

Lemma append_Suffix_length (m m' : File.t) (p : ptr) (c : Comment.t) :
  append_Suffix m p c = Some m' → length (File.Syntax m') = length (File.Syntax m).
Proof.
  intros (ln & _ & ->)%append_Suffix_Some. cbn [File.Syntax]. apply length_insert.
Qed.

Lemma append_Suffix_in_range (m : File.t) (p : ptr) (c : Comment.t) :
  p < length (File.Syntax m) → is_Some (append_Suffix m p c).
Proof.
  intros (ln & Hln)%lookup_lt_is_Some_2. unfold append_Suffix. rewrite Hln. by eexists.
Qed.



(** Rel finds a way between any two plain paths. *)
Lemma Rel_plain (base targ : string) :
  plain_path base → plain_path targ → ∃ sub, filepath.Rel base targ = Ok sub.
Proof.
  intros (bs & Hbne & Hbs & Hb)%plain_path_good (ts & Htne & Hts & Ht)%plain_path_good.
  unfold filepath.Rel. rewrite Hb, Ht.
  destruct (decide (bs = ts)) as [->|Hne].
  - unfold filepath.Rel_bytes. rewrite decide_True by done. by eexists.
  - destruct (Rel_bytes_good bs ts) as (c & bs' & ts' & _ & _ & _ & ->); [done..|].
    by eexists.
Qed.

(** A tree whose statements point at its lines can be annotated once
    Rel finds a way to the package. *)
Lemma annotated_in_range (m : File.t) (pkg : string) (cs : list Comment.t)
    (r : Require_.t) :
  lines_in_range m →
  module_Suffix m = Some cs →
  first_direct (File.Require_ m) = Some r →
  (Version.Path (Require_.Mod r) = pkg ∨
   ∃ sub, filepath.Rel (Version.Path (Require_.Mod r)) pkg = Ok sub) →
  is_Some (annotated m pkg).
Proof.
  intros Hrange Hcs Hr Hrel.
  destruct (with_meta_Some m cs Hcs) as (md & ln & m1 & _ & _ & _ & Hmeta & Hm1).
  unfold annotated. rewrite Hmeta. cbn.
  rewrite (append_Suffix_Require _ _ _ _ Hm1), Hr. cbn.
  unfold add_subpackage. case_decide as Hne; [|by eexists].
  destruct Hrel as [Heq|[sub Hsub]]; [done|]. rewrite Hsub.
  destruct (append_Suffix_in_range m1 (Require_.Syntax r)
              (Comment.mk ("// " +:+ sub) true)) as [m2 ->]; [|by eexists].
  rewrite (append_Suffix_length _ _ _ _ Hm1).
  unfold lines_in_range, statement_ptrs in Hrange.
  apply Forall_app in Hrange as [_ Hreq]. rewrite Forall_forall in Hreq.
  apply Hreq. apply list_elem_of_fmap_2. by apply first_direct_elem_of.
Qed.

(** ** Beyond the listed contract *)

Section Beyond.

Context {M : Modfile}.

(** X1: on a manifest that parses and has no module statement, ModHasMeta
    dereferences the nil [m.Module] and panics; AddMetaToMod, which calls
    it on the bytes it read, panics too, after closing the file it has
    not changed. *)
Theorem no_module_statement_panics (K : os.faults) (fs : gmap string bytes)
    (modFile pkg : string) (rd : option Reader) (b : bytes) (m : File.t) :
  Parse modFile b = Ok m →
  File.Module_ m = None →
  (readAllFileOrReader fs modFile rd = Ok b →
     ModHasMeta fs modFile rd = Panic nil_dereference) ∧
  (fs !! modFile = Some b →
   os.fail_OpenFile K = None → os.fail_ReadAll K = None →
     AddMetaToMod K fs modFile pkg = (fs, Panic nil_dereference)).
Proof.
  intros Hparse Hmod. split.
  - intros Hread. rewrite (ModHasMeta_parsed fs modFile rd b m) by done.
    unfold module_Suffix. by rewrite Hmod.
  - intros Hfs Hopen Hreadall.
    rewrite (AddMetaToMod_open K fs modFile pkg b) by done.
    unfold AddMetaToMod_opened, os.ReadAll. rewrite Hreadall.
    cbn [os.name os.data os.offset]. rewrite drop_0.
    rewrite (ModHasMeta_parsed fs modFile (Some (NewReader b)) b m) by done.
    unfold module_Suffix. rewrite Hmod. cbn. by rewrite insert_id.
Qed.

(** X2: with no fault, AddMetaToMod succeeds on every manifest that parses,
    has a module line without the marker and a tree to annotate that
    Format accepts: the file then holds what Format made of that tree. *)
Theorem AddMetaToMod_succeeds (fs : gmap string bytes) (modFile pkg : string)
    (b newB : bytes) (m m2 : File.t) (cs : list Comment.t) :
  fs !! modFile = Some b →
  Parse modFile b = Ok m →
  module_Suffix m = Some cs → ModHasMeta_range cs = false →
  annotated m pkg = Some m2 →
  Format m2 = Ok newB →
  AddMetaToMod os.no_faults fs modFile pkg = (<[modFile := newB]> fs, Return None).
Proof.
  intros Hfs Hparse Hcs Hmeta Hann HF.
  rewrite (AddMetaToMod_open os.no_faults fs modFile pkg b) by done.
  rewrite (AddMetaToMod_opened_parsed os.no_faults fs modFile pkg b m cs) by done.
  rewrite Hmeta. cbn zeta. revert Hann. unfold annotated.
  destruct (with_meta m) as [m1|]; [|done]. cbn.
  rewrite AddMetaToMod_range_first.
  destruct (first_direct (File.Require_ m1)) as [r|]; [|done]. cbn.
  destruct (add_subpackage m1 r pkg) as [[m2'|err]|p]; [|done..].
  intros [= ->]. by rewrite (flush_no_faults _ m2 newB HF).
Qed.

(** X3: what a failure of the flush leaves behind, for a tree that Format
    accepts: the file as it was when Truncate fails, the empty file when
    Seek fails, and the bytes written so far when Write fails.  The
    error is the one of the failing call ("truncate" and "seek" wrapped
    around the first two), under the close error when Close fails as
    well. *)
Theorem flush_failures (K : os.faults) (fs : gmap string bytes) (modFile pkg : string)
    (b newB : bytes) (m m2 : File.t) (cs : list Comment.t) :
  fs !! modFile = Some b →
  Parse modFile b = Ok m →
  module_Suffix m = Some cs → ModHasMeta_range cs = false →
  annotated m pkg = Some m2 →
  Format m2 = Ok newB →
  os.fail_OpenFile K = None → os.fail_ReadAll K = None →
  let after data err :=
    AddMetaToMod K fs modFile pkg
    = (<[modFile := data]> fs, deferred_Close (os.fail_Close K) (Return (Some err))) in
  (∀ e, os.fail_Truncate K = Some e → after b (Wrap e "truncate")) ∧
  (∀ e, os.fail_Truncate K = None → os.fail_Seek K = Some e →
        after [] (Wrap e "seek")) ∧
  (∀ n e, os.fail_Truncate K = None → os.fail_Seek K = None →
          os.fail_Write K = Some (n, e) → after (take n newB) e).
Proof.
  intros Hfs Hparse Hcs Hmeta Hann HF Hopen Hreadall after.
  assert (AddMetaToMod K fs modFile pkg
          = let '(f', r) := flush K (os.mkFile modFile b (length b)) m2 in
            (<[modFile := os.data f']> fs, deferred_Close (os.fail_Close K) r)) as Hrun.
  { rewrite (AddMetaToMod_open K fs modFile pkg b) by done.
    rewrite (AddMetaToMod_opened_parsed K fs modFile pkg b m cs) by done.
    rewrite Hmeta. cbn zeta. revert Hann. unfold annotated.
    destruct (with_meta m) as [m1|]; [|done]. cbn.
    rewrite AddMetaToMod_range_first.
    destruct (first_direct (File.Require_ m1)) as [r|]; [|done]. cbn.
    destruct (add_subpackage m1 r pkg) as [[m2'|err]|p]; [|done..].
    by intros [= ->]. }
  subst after. cbn beta. rewrite Hrun. unfold flush. rewrite HF.
  unfold os.Truncate, os.Seek, os.Write. split_and!.
  - intros e ->. done.
  - intros e -> ->. cbn [os.name os.data os.offset]. by rewrite take_0.
  - intros n e -> -> ->. cbn [os.name os.data os.offset].
    by rewrite take_0, write_at_nil.
Qed.

(** X4: a manifest that is not there: ModDirectPackage and ModHasMeta
    return the error of the read, AddMetaToMod the error of the open,
    and nothing is created. *)
Theorem missing_file_reported (fs : gmap string bytes) (modFile pkg : string) :
  fs !! modFile = None →
  ModDirectPackage fs modFile None = Return ("", Some (os.not_exist modFile)) ∧
  ModHasMeta fs modFile None = Return (false, Some (os.not_exist modFile)) ∧
  AddMetaToMod os.no_faults fs modFile pkg = (fs, Return (Some (os.not_exist modFile))).
Proof.
  intros Hfs.
  unfold ModDirectPackage, ModHasMeta, AddMetaToMod, readAllFileOrReader,
    os.ReadFile, os.OpenFile.
  by rewrite Hfs.
Qed.

(** AddMetaToMod up to the flush, on a manifest that has no marker and
    a tree to annotate. *)
Lemma AddMetaToMod_flush (K : os.faults) (fs : gmap string bytes)
    (modFile pkg : string) (b : bytes) (m m2 : File.t) (cs : list Comment.t) :
  fs !! modFile = Some b →
  Parse modFile b = Ok m →
  module_Suffix m = Some cs → ModHasMeta_range cs = false →
  annotated m pkg = Some m2 →
  os.fail_OpenFile K = None → os.fail_ReadAll K = None →
  AddMetaToMod K fs modFile pkg
  = let '(f', r) := flush K (os.mkFile modFile b (length b)) m2 in
    (<[modFile := os.data f']> fs, deferred_Close (os.fail_Close K) r).
Proof.
  intros Hfs Hparse Hcs Hmeta Hann Hopen Hreadall.
  rewrite (AddMetaToMod_open K fs modFile pkg b) by done.
  rewrite (AddMetaToMod_opened_parsed K fs modFile pkg b m cs) by done.
  rewrite Hmeta. cbn zeta. revert Hann. unfold annotated.
  destruct (with_meta m) as [m1|]; [|done]. cbn.
  rewrite AddMetaToMod_range_first.
  destruct (first_direct (File.Require_ m1)) as [r|]; [|done]. cbn.
  destruct (add_subpackage m1 r pkg) as [[m2'|err]|p]; [|done..].
  by intros [= ->].
Qed.

(** AddMetaToMod on a manifest without the marker whose first direct
    requirement Rel cannot reach the package from. *)
Lemma AddMetaToMod_Rel_failed (K : os.faults) (fs : gmap string bytes)
    (modFile pkg : string) (b : bytes) (m : File.t) (cs : list Comment.t)
    (r : Require_.t) (e : error) :
  fs !! modFile = Some b →
  Parse modFile b = Ok m →
  module_Suffix m = Some cs → ModHasMeta_range cs = false →
  first_direct (File.Require_ m) = Some r →
  filepath.Rel (Version.Path (Require_.Mod r)) pkg = Failed e →
  os.fail_OpenFile K = None → os.fail_ReadAll K = None →
  AddMetaToMod K fs modFile pkg
  = (fs, deferred_Close (os.fail_Close K) (Return (Some e))).
Proof.
  intros Hfs Hparse Hcs Hmeta Hr Hrel Hopen Hreadall.
  rewrite (AddMetaToMod_open K fs modFile pkg b) by done.
  rewrite (AddMetaToMod_opened_parsed K fs modFile pkg b m cs) by done.
  rewrite Hmeta. cbn zeta.
  destruct (with_meta_Some m cs Hcs) as (md & ln & m1 & _ & _ & _ & -> & Hm1).
  rewrite AddMetaToMod_range_first, (append_Suffix_Require _ _ _ _ Hm1), Hr.
  unfold add_subpackage. rewrite Hrel.
  rewrite decide_True.
  - cbn [os.data]. by rewrite insert_id.
  - intros Heq. by rewrite Heq, Rel_same in Hrel.
Qed.




(** X7: the manifest is touched at the flush only.  Whatever the faults,
    AddMetaToMod leaves the file system as it was, unless the manifest
    was read and parsed, the tree was annotated, Format accepted it and
    Truncate went through: then the manifest holds a prefix of what
    Format returned. *)
Theorem AddMetaToMod_commit_point (K : os.faults) (fs : gmap string bytes)
    (modFile pkg : string) :
  (AddMetaToMod K fs modFile pkg).1 = fs ∨
  ∃ b m m2 newB n,
    fs !! modFile = Some b ∧ Parse modFile b = Ok m ∧
    annotated m pkg = Some m2 ∧ Format m2 = Ok newB ∧
    os.fail_Truncate K = None ∧
    (AddMetaToMod K fs modFile pkg).1 = <[modFile := take n newB]> fs.
Proof.
  unfold AddMetaToMod, os.OpenFile.
  destruct (os.fail_OpenFile K); [by left|].
  destruct (fs !! modFile) as [b|] eqn:Hfs; [|by left].
  destruct (AddMetaToMod_opened K fs (os.mkFile modFile b 0) modFile pkg)
    as [f' r] eqn:Hop.
  cbn [fst]. revert Hop. unfold AddMetaToMod_opened, os.ReadAll.
  assert (∀ o, <[modFile := os.data (os.mkFile modFile b o)]> fs = fs) as Hsame.
  { intros o. cbn. by apply insert_id. }
  destruct (os.fail_ReadAll K); [intros [= <- _]; by left|].
  cbn [os.name os.data os.offset]. rewrite drop_0.
  unfold ModHasMeta, readAllFileOrReader, NewReader.
  destruct (Parse modFile b) as [m|err] eqn:Hparse; [|intros [= <- _]; by left].
  destruct (File.Module_ m) as [md|] eqn:Hmd; [|intros [= <- _]; by left].
  destruct (File.Syntax m !! Module_.Syntax md) as [ln|] eqn:Hln;
    [|intros [= <- _]; by left].
  destruct (ModHasMeta_range (Line.Suffix ln)) eqn:Hmeta; [intros [= <- _]; by left|].
  destruct (append_Suffix m (Module_.Syntax md) (Comment.mk metaComment true))
    as [m1|] eqn:Hm1; [|intros [= <- _]; by left].
  rewrite AddMetaToMod_range_first.
  destruct (first_direct (File.Require_ m1)) as [rq|] eqn:Hr; [|intros [= <- _]; by left].
  destruct (add_subpackage m1 rq pkg) as [[m2|err]|p] eqn:Hsub;
    [|intros [= <- _]; by left..].
  assert (annotated m pkg = Some m2) as Hann.
  { unfold annotated, with_meta. rewrite Hmd. cbn. rewrite Hm1. cbn.
    rewrite Hr. cbn. by rewrite Hsub. }
  unfold flush, os.Truncate, os.Seek, os.Write.
  destruct (Format m2) as [newB|err] eqn:HF; [|intros [= <- _]; by left].
  destruct (os.fail_Truncate K) eqn:Htrunc; [intros [= <- _]; by left|].
  cbn [os.name os.data os.offset]. rewrite take_0.
  destruct (os.fail_Seek K).
  { intros [= <- _]. right. exists b, m, m2, newB, 0. by rewrite take_0. }
  cbn [os.name os.data os.offset].
  destruct (os.fail_Write K) as [[n e]|]; intros [= <- _]; right;
    cbn [os.data]; rewrite write_at_nil.
  - by exists b, m, m2, newB, n.
  - exists b, m, m2, newB, (length newB). by rewrite firstn_all.
Qed.

(** X8: a rooted package path (/home/me/tool) for a requirement whose
    module path is not rooted: Rel finds no way, and AddMetaToMod returns
    its error with the file as it was. *)
Theorem rooted_package_rejected (K : os.faults) (fs : gmap string bytes)
    (modFile pkg : string) (b : bytes) (m : File.t) (cs : list Comment.t)
    (r : Require_.t) :
  fs !! modFile = Some b →
  Parse modFile b = Ok m →
  module_Suffix m = Some cs → ModHasMeta_range cs = false →
  first_direct (File.Require_ m) = Some r →
  head (of_string pkg) = Some Separator →
  head (of_string (Version.Path (Require_.Mod r))) ≠ Some Separator →
  os.fail_OpenFile K = None → os.fail_ReadAll K = None →
  let e := New ("Rel: can't make " +:+ pkg +:+ " relative to "
                +:+ Version.Path (Require_.Mod r)) in
  ∃ err, AddMetaToMod K fs modFile pkg = (fs, Return (Some err)) ∧
         Cause err = e ∧ (os.fail_Close K = None → err = e).
Proof.
  intros Hfs Hparse Hcs Hmeta Hr Hpkg Hmod Hopen Hreadall e.
  assert (filepath.Rel (Version.Path (Require_.Mod r)) pkg = Failed e) as Hrel.
  { unfold filepath.Rel. by rewrite Rel_bytes_rooted_target. }
  rewrite (AddMetaToMod_Rel_failed K fs modFile pkg b m cs r e) by done.
  destruct (deferred_Close_error (os.fail_Close K) e) as (e' & -> & Hcause & Hclose).
  by exists e'.
Qed.

(** X9: a successful AddMetaToMod keeps the suffix comments that were
    there.  In the tree it has handed to Format, the module line has its
    old comments followed by the marker, and the line of the first direct
    requirement has its old comments, followed by the sub-package comment
    when the package is not the module itself. *)
Theorem annotations_appended (K : os.faults) (fs fs' : gmap string bytes)
    (modFile pkg : string) (b : bytes) (m : File.t) (r : Require_.t)
    (cs sr : list Comment.t) :
  fs !! modFile = Some b →
  Parse modFile b = Ok m →
  first_direct (File.Require_ m) = Some r →
  module_Suffix m = Some cs →
  require_Suffix m r = Some sr →
  own_lines m →
  AddMetaToMod K fs modFile pkg = (fs', Return None) →
  ∃ m2 newB,
    Format m2 = Ok newB ∧ fs' = <[modFile := newB]> fs ∧
    module_Suffix m2 = Some (cs ++ [Comment.mk metaComment true]) ∧
    if decide (Version.Path (Require_.Mod r) = pkg)
    then require_Suffix m2 r = Some sr
    else ∃ sub, filepath.Rel (Version.Path (Require_.Mod r)) pkg = Ok sub ∧
                require_Suffix m2 r = Some (sr ++ [Comment.mk ("// " +:+ sub) true]).
Proof.
  intros Hfs Hparse Hr Hcs Hsr Hown Hok.
  destruct (AddMetaToMod_success K fs fs' modFile pkg Hok)
    as (b' & m' & cs0 & m2 & newB & Hfs' & Hparse' & _ & _ & Hann & HF & ->).
  assert (b' = b) as -> by congruence. assert (m' = m) as -> by congruence.
  destruct (annotated_Suffix m m2 pkg r sr Hr Hown Hsr Hann)
    as (cs' & Hcs' & Hcs2 & Hcase).
  assert (cs' = cs) as -> by congruence.
  exists m2, newB. split_and!; [done..|].
  destruct Hcase as [(Heq & Hsr2 & _)|(Hne & sub & Hrel & Hsr2)].
  - by rewrite decide_True.
  - rewrite decide_False by done. by exists sub.
Qed.


(** X11: when Close is the one call that fails, AddMetaToMod returns the
    error of the close although the manifest is rewritten in full. *)
Theorem close_failure_after_commit (fs : gmap string bytes) (modFile pkg : string)
    (b newB : bytes) (m m2 : File.t) (cs : list Comment.t) (cerr : error) :
  fs !! modFile = Some b →
  Parse modFile b = Ok m →
  module_Suffix m = Some cs → ModHasMeta_range cs = false →
  annotated m pkg = Some m2 →
  Format m2 = Ok newB →
  AddMetaToMod (os.closing os.no_faults (Some cerr)) fs modFile pkg
  = (<[modFile := newB]> fs, Return (Some cerr)).
Proof.
  intros Hfs Hparse Hcs Hmeta Hann HF.
  rewrite (AddMetaToMod_flush _ fs modFile pkg b m m2 cs) by done.
  unfold flush. rewrite HF.
  cbn [os.Truncate os.Seek os.Write os.closing os.no_faults os.fail_Truncate
       os.fail_Seek os.fail_Write os.fail_Close os.name os.data os.offset].
  by rewrite take_0, write_at_nil.
Qed.

(** X12: what Format refuses is not written: AddMetaToMod returns the
    error of Format as it is (under the close error when Close fails as
    well) and the file is as it was. *)
Theorem format_error_reported (K : os.faults) (fs : gmap string bytes)
    (modFile pkg : string) (b : bytes) (m m2 : File.t) (cs : list Comment.t)
    (e : error) :
  fs !! modFile = Some b →
  Parse modFile b = Ok m →
  module_Suffix m = Some cs → ModHasMeta_range cs = false →
  annotated m pkg = Some m2 →
  Format m2 = Failed e →
  os.fail_OpenFile K = None → os.fail_ReadAll K = None →
  ∃ err, AddMetaToMod K fs modFile pkg = (fs, Return (Some err)) ∧
         Cause err = Cause e ∧ (os.fail_Close K = None → err = e).
Proof.
  intros Hfs Hparse Hcs Hmeta Hann HF Hopen Hreadall.
  rewrite (AddMetaToMod_flush K fs modFile pkg b m m2 cs) by done.
  unfold flush. rewrite HF. cbn [os.data]. rewrite insert_id by done.
  destruct (deferred_Close_error (os.fail_Close K) e) as (e' & -> & Hcause & Hclose).
  by exists e'.
Qed.

(** X13: where the three functions panic.  On a tree whose statements
    point at lines of the tree, ModHasMeta panics exactly when there is
    no module statement, and so does AddMetaToMod once the file is open
    and read; ModDirectPackage panics exactly when the first suffix
    comment on the line of the first direct requirement is shorter than
    three bytes. *)
Theorem panics_exactly_when (K : os.faults) (fs : gmap string bytes)
    (modFile pkg : string) (rd : option Reader) (b : bytes) (m : File.t) :
  Parse modFile b = Ok m →
  lines_in_range m →
  (readAllFileOrReader fs modFile rd = Ok b →
     ((∃ p, ModHasMeta fs modFile rd = Panic p) ↔ File.Module_ m = None) ∧
     ((∃ p, ModDirectPackage fs modFile rd = Panic p) ↔
      ∃ r c sr, first_direct (File.Require_ m) = Some r ∧
                require_Suffix m r = Some (c :: sr) ∧
                String.length (Comment.Token c) < 3)) ∧
  (fs !! modFile = Some b →
   os.fail_OpenFile K = None → os.fail_ReadAll K = None →
     (∃ p, (AddMetaToMod K fs modFile pkg).2 = Panic p) ↔ File.Module_ m = None).
Proof.
  intros Hparse Hrange. unfold lines_in_range, statement_ptrs in Hrange.
  apply Forall_app in Hrange as [Hmod Hreq].
  assert (∀ r, first_direct (File.Require_ m) = Some r →
               is_Some (File.Syntax m !! Require_.Syntax r)) as Hline.
  { intros r Hr%first_direct_elem_of. apply lookup_lt_is_Some_2.
    rewrite Forall_forall in Hreq. apply Hreq. by apply list_elem_of_fmap_2. }
  split; [intros Hread; split|intros Hfs Hopen Hreadall].
  - rewrite (ModHasMeta_parsed fs modFile rd b m) by done. unfold module_Suffix.
    destruct (File.Module_ m) as [md|]; cbn.
    + cbn in Hmod. apply Forall_cons in Hmod as [[ln Hln]%lookup_lt_is_Some_2 _].
      rewrite Hln. cbn. split; [by intros [p ?]|done].
    + split; [done|]. by eexists.
  - rewrite (ModDirectPackage_parsed fs modFile rd b m) by done.
    rewrite ModDirectPackage_range_first. unfold require_Suffix.
    destruct (first_direct (File.Require_ m)) as [r|] eqn:Hr.
    + destruct (Hline r eq_refl) as [ln Hln]. rewrite Hln. unfold suffixed.
      destruct (Line.Suffix ln) as [|c sr] eqn:Hsuf.
      * split; [by intros [p ?]|].
        intros (r' & c & sr & [= <-] & Hsr & _). rewrite Hln in Hsr. cbn in Hsr.
        by rewrite Hsuf in Hsr.
      * case_decide as Hlen.
        -- split; [|by eexists]. intros _. exists r, c, sr. rewrite Hln. cbn.
           by rewrite Hsuf.
        -- split; [by intros [p ?]|].
           intros (r' & c' & sr' & [= <-] & Hsr & Hlen'). rewrite Hln in Hsr.
           cbn in Hsr. rewrite Hsuf in Hsr. by simplify_eq.
    + split; [by intros [p ?]|]. by intros (r' & c & sr & ? & _).
  - rewrite (AddMetaToMod_open K fs modFile pkg b) by done.
    destruct (File.Module_ m) as [md|] eqn:Hmd.
    + cbn in Hmod. apply Forall_cons in Hmod as [Hlt _].
      destruct (lookup_lt_is_Some_2 _ _ Hlt) as [ln Hln].
      rewrite (AddMetaToMod_opened_parsed K fs modFile pkg b m (Line.Suffix ln));
        [|done..|unfold module_Suffix; rewrite Hmd; cbn; by rewrite Hln].
      split; [|done]. intros [p Hp]. exfalso. revert Hp.
      destruct (ModHasMeta_range (Line.Suffix ln)).
      { cbn. by destruct (os.fail_Close K). }
      cbn zeta. unfold with_meta. rewrite Hmd. cbn.
      destruct (append_Suffix_in_range m (Module_.Syntax md)
                  (Comment.mk metaComment true) Hlt) as [m1 Hm1].
      rewrite Hm1, AddMetaToMod_range_first, (append_Suffix_Require _ _ _ _ Hm1).
      destruct (first_direct (File.Require_ m)) as [r|] eqn:Hr.
      * unfold add_subpackage.
        destruct (decide (Version.Path (Require_.Mod r) ≠ pkg)) as [Hne|Heq].
        -- destruct (filepath.Rel (Version.Path (Require_.Mod r)) pkg) as [sub|e].
           ++ destruct (append_Suffix_in_range m1 (Require_.Syntax r)
                          (Comment.mk ("// " +:+ sub) true)) as [m2 Hm2].
              { rewrite (append_Suffix_length _ _ _ _ Hm1).
                destruct (Hline r eq_refl) as [lr Hlr]. by eapply lookup_lt_Some. }
              rewrite Hm2. unfold flush, os.Truncate, os.Seek, os.Write.
              destruct (Format m2); [|cbn; by destruct (os.fail_Close K)].
              destruct (os.fail_Truncate K); [cbn; by destruct (os.fail_Close K)|].
              destruct (os.fail_Seek K); [cbn; by destruct (os.fail_Close K)|].
              destruct (os.fail_Write K) as [[n e]|]; cbn;
                by destruct (os.fail_Close K).
           ++ cbn. by destruct (os.fail_Close K).
        -- unfold flush, os.Truncate, os.Seek, os.Write.
           destruct (Format m1); [|cbn; by destruct (os.fail_Close K)].
           destruct (os.fail_Truncate K); [cbn; by destruct (os.fail_Close K)|].
           destruct (os.fail_Seek K); [cbn; by destruct (os.fail_Close K)|].
           destruct (os.fail_Write K) as [[n e]|]; cbn;
             by destruct (os.fail_Close K).
      * cbn. by destruct (os.fail_Close K).
    + split; [done|]. intros _.
      unfold AddMetaToMod_opened, os.ReadAll. rewrite Hreadall.
      cbn [os.name os.data os.offset]. rewrite drop_0.
      rewrite (ModHasMeta_parsed fs modFile (Some (NewReader b)) b m) by done.
      unfold module_Suffix. rewrite Hmd. cbn. by eexists.
Qed.

(** X14: between plain paths Rel always finds a way, so a package
    outside the module of the first direct requirement is no error.  With
    no fault, AddMetaToMod succeeds on every manifest without the marker
    whose statements point at their lines, for every plain package path
    and plain module path, as long as Format accepts the annotated
    tree. *)
Theorem plain_paths_annotated (fs : gmap string bytes) (modFile pkg : string)
    (b : bytes) (m : File.t) (cs : list Comment.t) (r : Require_.t) :
  fs !! modFile = Some b →
  Parse modFile b = Ok m →
  lines_in_range m →
  module_Suffix m = Some cs → ModHasMeta_range cs = false →
  first_direct (File.Require_ m) = Some r →
  plain_path (Version.Path (Require_.Mod r)) → plain_path pkg →
  (∀ m2, annotated m pkg = Some m2 → ∃ newB, Format m2 = Ok newB) →
  ∃ m2 newB,
    annotated m pkg = Some m2 ∧ Format m2 = Ok newB ∧
    AddMetaToMod os.no_faults fs modFile pkg = (<[modFile := newB]> fs, Return None).
Proof.
  intros Hfs Hparse Hrange Hcs Hmeta Hr Hmod Hpkg Hformat.
  destruct (Rel_plain _ _ Hmod Hpkg) as [sub Hrel].
  destruct (annotated_in_range m pkg cs r) as [m2 Hann]; [done..|by right; eexists|].
  destruct (Hformat m2 Hann) as [newB HF].
  exists m2, newB. split_and!; [done..|].
  rewrite (AddMetaToMod_flush _ fs modFile pkg b m m2 cs) by done.
  by rewrite (flush_no_faults _ m2 newB HF).
Qed.

End Beyond.

(** ** The contract on concrete manifests *)

Import Samples.

(** Discharging what the theorems ask of a concrete manifest. *)
Ltac by_computation :=
  first
    [ vm_compute; reflexivity
    | apply (bool_decide_unpack _); vm_compute; exact I ].

Ltac round_trip_by_computation :=
  let m2 := fresh "m2" in
  let Hm2 := fresh "Hm2" in
  let b := fresh "b" in
  let Hb := fresh "Hb" in
  intros m2 Hm2; vm_compute in Hm2; injection Hm2 as <-;
  intros b Hb; vm_compute in Hb; injection Hb as <-;
  vm_compute; reflexivity.

(** C5 on the manifest that carries the marker. *)
Lemma ModHasMeta_true_iff_witness :
  ModHasMeta (M := MiniMod.impl) (disk marked_mod) "go.mod" None = Return (true, None) ↔
  ∃ cs c, module_Suffix (tree marked_mod) = Some cs ∧ c ∈ cs ∧
          Comment.Token c = metaComment.
Proof.
  apply (ModHasMeta_true_iff (M := MiniMod.impl) (disk marked_mod) "go.mod" None
           marked_mod (tree marked_mod)); vm_compute; reflexivity.
Defined.

(** C10 on a comment of two bytes, which panics, and on a comment that
    is read as the sub-package. *)
Lemma ModDirectPackage_first_suffix_witness :
  ModDirectPackage (M := MiniMod.impl) (disk bare_comment_mod) "go.mod" None
  = Panic slice_out_of_range ∧
  ModDirectPackage (M := MiniMod.impl) (disk pinned_mod) "go.mod" None
  = Return ("example.com/foo/pinned", None).
Proof.
  split.
  - rewrite (ModDirectPackage_first_suffix (M := MiniMod.impl) (disk bare_comment_mod)
               "go.mod" None bare_comment_mod (tree bare_comment_mod) (foo 1)
               (Comment.mk "//" true) []); vm_compute; reflexivity.
  - rewrite (ModDirectPackage_first_suffix (M := MiniMod.impl) (disk pinned_mod)
               "go.mod" None pinned_mod (tree pinned_mod) (foo 2)
               (Comment.mk "// pinned" true) []); vm_compute; reflexivity.
Defined.

(** C4 on the manifest with the unclosed block. *)
Lemma parse_error_reported_witness :
  (ModDirectPackage (M := MiniMod.impl) (disk broken_mod) "go.mod" None
   = Return ("", Some (New "go.mod: unknown directive: require")) ∧
   ModHasMeta (M := MiniMod.impl) (disk broken_mod) "go.mod" None
   = Return (false, Some (Wrap (New "go.mod: unknown directive: require")
                               "failed to parse"))) ∧
  ∃ err, annotate broken_mod "example.com/foo" = (disk broken_mod, Return (Some err)) ∧
         Cause err = New "go.mod: unknown directive: require".
Proof.
  destruct (parse_error_reported (M := MiniMod.impl) os.no_faults (disk broken_mod)
              "go.mod" "example.com/foo" None broken_mod
              (New "go.mod: unknown directive: require"))
    as [Hread Hadd]; [vm_compute; reflexivity|].
  split; [apply Hread; vm_compute; reflexivity|].
  destruct Hadd as (err & Hrun & Hcause & _); [vm_compute; reflexivity..|].
  by exists err.
Defined.

(** C2 on the manifest that carries the marker. *)
Lemma AddMetaToMod_already_annotated_witness :
  (annotate marked_mod "example.com/foo").1 = disk marked_mod ∧
  ∃ err, (annotate marked_mod "example.com/foo").2 = Return (Some err) ∧
         Cause err = New "module go.mod has already all meta".
Proof.
  destruct (AddMetaToMod_already_annotated (M := MiniMod.impl) os.no_faults
              (disk marked_mod) "go.mod" "example.com/foo" marked_mod (tree marked_mod)
              [Comment.mk metaComment true] (Comment.mk metaComment true))
    as [Hsame Herr]; [vm_compute; reflexivity..|by left|reflexivity|].
  split; [exact Hsame|].
  destruct Herr as (err & Hrun & Hcause & _); [reflexivity..|].
  by exists err.
Defined.

(** C3, amended, on the manifest with one indirect requirement and no
    marker. *)
Lemma no_direct_requirement_witness :
  ModDirectPackage (M := MiniMod.impl) (disk indirect_only_mod) "go.mod" None
  = Return ("", None) ∧
  ∃ err, annotate indirect_only_mod "example.com/foo"
         = (disk indirect_only_mod, Return (Some err)) ∧
         Cause err = New "empty module found in go.mod".
Proof.
  destruct (no_direct_requirement (M := MiniMod.impl) os.no_faults
              (disk indirect_only_mod) "go.mod" "example.com/foo" None
              indirect_only_mod (tree indirect_only_mod))
    as [Hread Hadd]; [vm_compute; reflexivity|by repeat constructor|].
  split; [apply Hread; vm_compute; reflexivity|].
  destruct (Hadd []) as (err & Hrun & Hcause & _); [vm_compute; reflexivity..|].
  by exists err.
Defined.

(** C3 as stated fails on a manifest that carries the marker and has no
    direct requirement: AddMetaToMod reports that the module has all its
    meta already, not an empty module. *)
Lemma no_direct_requirement_counterexample :
  Forall (λ r, Require_.Indirect r = true) (File.Require_ (tree marked_mod)) ∧
  MiniMod.Parse "go.mod" marked_mod = Ok (tree marked_mod) ∧
  annotate marked_mod "example.com/foo"
  = (disk marked_mod, Return (Some (New "module go.mod has already all meta"))) ∧
  New "module go.mod has already all meta" ≠ New "empty module found in go.mod".
Proof.
  split_and!; [by repeat constructor|vm_compute; reflexivity..|done].
Qed.



(** C6, amended, for the package example.com/foo itself. *)
Lemma AddMetaToMod_module_itself_witness :
  ∃ m1 newB,
    with_meta (tree plain_mod) = Some m1 ∧ MiniMod.Format m1 = Ok newB ∧
    (annotate plain_mod "example.com/foo").1 = <["go.mod" := newB]> (disk plain_mod) ∧
    require_Suffix m1 (foo 3) = Some [] ∧
    ModDirectPackage (M := MiniMod.impl) (annotate plain_mod "example.com/foo").1
      "go.mod" None = Return ("example.com/foo", None).
Proof.
  apply (AddMetaToMod_module_itself (M := MiniMod.impl) os.no_faults (disk plain_mod) _
           "go.mod" plain_mod (tree plain_mod) (foo 3));
    [by_computation..|round_trip_by_computation|by_computation].
Defined.

(** C6 as stated fails when the requirement's line already ends in a
    comment: nothing is added to that line, and ModDirectPackage joins the
    old comment to the module path. *)
Lemma AddMetaToMod_module_itself_counterexample :
  first_direct (File.Require_ (tree pinned_mod)) = Some (foo 2) ∧
  ModHasMeta (M := MiniMod.impl) (disk pinned_mod) "go.mod" None = Return (false, None) ∧
  (annotate pinned_mod "example.com/foo").2 = Return None ∧
  ModDirectPackage (M := MiniMod.impl) (annotate pinned_mod "example.com/foo").1
    "go.mod" None = Return ("example.com/foo/pinned", None).
Proof. split_and!; vm_compute; reflexivity. Qed.

(** C7, amended, on the plain manifest. *)
Lemma AddMetaToMod_sub_pkg_witness :
  ∃ m2 newB,
    annotated (tree plain_mod) "example.com/foo/sub/pkg" = Some m2 ∧
    MiniMod.Format m2 = Ok newB ∧
    (annotate plain_mod "example.com/foo/sub/pkg").1 = <["go.mod" := newB]> (disk plain_mod) ∧
    require_Suffix m2 (foo 3) = Some [Comment.mk "// sub/pkg" true] ∧
    slice_from 3 "// sub/pkg" = "sub/pkg" ∧
    ModDirectPackage (M := MiniMod.impl) (annotate plain_mod "example.com/foo/sub/pkg").1
      "go.mod" None = Return ("example.com/foo/sub/pkg", None).
Proof.
  apply (AddMetaToMod_sub_pkg (M := MiniMod.impl) os.no_faults (disk plain_mod) _
           "go.mod" plain_mod (tree plain_mod) (foo 3));
    [by_computation..|round_trip_by_computation|by_computation].
Defined.

(** C7 as stated fails when the requirement's line already ends in a
    comment: that comment stays the first, and ModDirectPackage reads
    it. *)
Lemma AddMetaToMod_sub_pkg_counterexample :
  first_direct (File.Require_ (tree pinned_mod)) = Some (foo 2) ∧
  ModHasMeta (M := MiniMod.impl) (disk pinned_mod) "go.mod" None = Return (false, None) ∧
  (annotate pinned_mod "example.com/foo/sub/pkg").2 = Return None ∧
  ModDirectPackage (M := MiniMod.impl) (annotate pinned_mod "example.com/foo/sub/pkg").1
    "go.mod" None = Return ("example.com/foo/pinned", None).
Proof. split_and!; vm_compute; reflexivity. Qed.

(** C8 on the manifest with an indirect requirement before the first
    direct one and a direct one after it. *)
Lemma first_direct_only_witness :
  (∃ m2 newB,
     annotated (tree two_direct_mod) "example.com/foo/cmd/tool" = Some m2 ∧
     MiniMod.Format m2 = Ok newB ∧
     (annotate two_direct_mod "example.com/foo/cmd/tool").1
     = <["go.mod" := newB]> (disk two_direct_mod) ∧
     (round_trips (M := MiniMod.impl) "go.mod" m2 → MiniMod.Parse "go.mod" newB = Ok m2) ∧
     File.Require_ m2 = File.Require_ (tree two_direct_mod) ∧
     ∀ r', r' ∈ [bar 1] ++ [baz 3] →
           File.Syntax m2 !! Require_.Syntax r'
           = File.Syntax (tree two_direct_mod) !! Require_.Syntax r') ∧
  ModDirectPackage (M := MiniMod.impl) (disk two_direct_mod) "go.mod" None
  = ModDirectPackage_range (File.Syntax (tree two_direct_mod)) [foo 2].
Proof.
  destruct (first_direct_only (M := MiniMod.impl) os.no_faults (disk two_direct_mod)
              (annotate two_direct_mod "example.com/foo/cmd/tool").1
              "go.mod" "example.com/foo/cmd/tool" None two_direct_mod
              (tree two_direct_mod) [bar 1] [baz 3] (foo 2))
    as [Hadd Hread];
    [by_computation|by_computation|by repeat constructor|reflexivity|by_computation|].
  split; [apply Hadd; by_computation|apply Hread; by_computation].
Defined.

(** C9 on the manifest without a direct requirement: the error of the
    call alone, then wrapped with the error of the close. *)
Lemma close_error_reported_witness :
  annotate indirect_only_mod "example.com/foo"
  = (disk indirect_only_mod, Return (Some (New "empty module found in go.mod"))) ∧
  AddMetaToMod (M := MiniMod.impl) (os.closing os.no_faults (Some (New "close go.mod: input/output error")))
    (disk indirect_only_mod) "go.mod" "example.com/foo"
  = (disk indirect_only_mod,
     Return (Some (Wrap (New "empty module found in go.mod")
                        "additionally error on close: close go.mod: input/output error"))).
Proof.
  destruct (close_error_reported (M := MiniMod.impl) os.no_faults (disk indirect_only_mod)
              "go.mod" "example.com/foo" indirect_only_mod
              (os.mkFile "go.mod" indirect_only_mod (length indirect_only_mod))
              (Return (Some (New "empty module found in go.mod"))))
    as [Hok Hfail]; [by_computation..|].
  split.
  - etrans; [exact Hok|by_computation].
  - destruct (Hfail (New "close go.mod: input/output error")) as [Hrun _].
    etrans; [exact Hrun|by_computation].
Defined.

(** X1 on a manifest that holds a go statement only. *)
Lemma no_module_statement_panics_witness :
  ModHasMeta (M := MiniMod.impl) (disk (MiniMod.manifest ["go 1.14"])) "go.mod" None
  = Panic nil_dereference ∧
  annotate (MiniMod.manifest ["go 1.14"]) "example.com/foo"
  = (disk (MiniMod.manifest ["go 1.14"]), Panic nil_dereference).
Proof.
  destruct (no_module_statement_panics (M := MiniMod.impl) os.no_faults
              (disk (MiniMod.manifest ["go 1.14"])) "go.mod" "example.com/foo" None
              (MiniMod.manifest ["go 1.14"]) (tree (MiniMod.manifest ["go 1.14"])))
    as [Hread Hadd]; [by_computation..|].
  split; [apply Hread|apply Hadd]; by_computation.
Defined.

(** X2: the plain manifest after AddMetaToMod. *)
Lemma AddMetaToMod_succeeds_witness :
  annotate plain_mod "example.com/foo/cmd/tool"
  = (<["go.mod" :=
         MiniMod.manifest
           ["module tool/bin // Auto generated by https://github.com/bwplotka/gobin. DO NOT EDIT";
            "go 1.14";
            "require example.com/bar v0.1.0 // indirect";
            "require example.com/foo v1.2.3 // cmd/tool"]]> (disk plain_mod),
     Return None).
Proof.
  apply (AddMetaToMod_succeeds (M := MiniMod.impl) (disk plain_mod) "go.mod"
           "example.com/foo/cmd/tool" plain_mod _ (tree plain_mod)
           (default (tree plain_mod) (annotated (tree plain_mod) "example.com/foo/cmd/tool"))
           []); by_computation.
Defined.

(** X3: a write that fails after seven bytes. *)
Lemma flush_failures_witness :
  AddMetaToMod (M := MiniMod.impl)
    (os.mkFaults None None None None (Some (7, New "write go.mod: no space left on device")) None)
    (disk plain_mod) "go.mod" "example.com/foo/cmd/tool"
  = (<["go.mod" := of_string "module "]> (disk plain_mod),
     Return (Some (New "write go.mod: no space left on device"))).
Proof.
  destruct (flush_failures (M := MiniMod.impl)
              (os.mkFaults None None None None
                 (Some (7, New "write go.mod: no space left on device")) None)
              (disk plain_mod) "go.mod" "example.com/foo/cmd/tool" plain_mod
              (match MiniMod.Format
                       (default (tree plain_mod)
                          (annotated (tree plain_mod) "example.com/foo/cmd/tool")) with
               | Ok newB => newB
               | Failed _ => []
               end)
              (tree plain_mod)
              (default (tree plain_mod) (annotated (tree plain_mod) "example.com/foo/cmd/tool"))
              [])
    as (_ & _ & Hwrite); [by_computation..|].
  etrans; [apply (Hwrite 7 (New "write go.mod: no space left on device")); reflexivity|].
  by_computation.
Defined.

(** X4 on the empty file system. *)
Lemma missing_file_reported_witness :
  ModDirectPackage (M := MiniMod.impl) ∅ "go.mod" None
  = Return ("", Some (New "open go.mod: no such file or directory")) ∧
  ModHasMeta (M := MiniMod.impl) ∅ "go.mod" None
  = Return (false, Some (New "open go.mod: no such file or directory")) ∧
  AddMetaToMod (M := MiniMod.impl) os.no_faults ∅ "go.mod" "example.com/foo"
  = (∅, Return (Some (New "open go.mod: no such file or directory"))).
Proof.
  apply (missing_file_reported (M := MiniMod.impl) ∅ "go.mod" "example.com/foo").
  apply lookup_empty.
Defined.



(** X8: a path of the file system given as the package. *)
Lemma rooted_package_rejected_witness :
  ∃ err, annotate plain_mod "/home/me/tool" = (disk plain_mod, Return (Some err)) ∧
         Cause err = New "Rel: can't make /home/me/tool relative to example.com/foo".
Proof.
  destruct (rooted_package_rejected (M := MiniMod.impl) os.no_faults (disk plain_mod)
              "go.mod" "/home/me/tool" plain_mod (tree plain_mod) [] (foo 3))
    as (err & Hrun & Hcause & _); [by_computation..|].
  by exists err.
Defined.

(** X9 on the manifest with a comment on both lines. *)
Lemma annotations_appended_witness :
  ∃ m2 newB,
    MiniMod.Format m2 = Ok newB ∧
    (annotate commented_mod "example.com/foo/cmd/tool").1
    = <["go.mod" := newB]> (disk commented_mod) ∧
    module_Suffix m2
    = Some [Comment.mk "// tools of the build" true; Comment.mk metaComment true] ∧
    ∃ sub, filepath.Rel "example.com/foo" "example.com/foo/cmd/tool" = Ok sub ∧
           require_Suffix m2 (foo 1)
           = Some [Comment.mk "// pinned" true; Comment.mk ("// " +:+ sub) true].
Proof.
  apply (annotations_appended (M := MiniMod.impl) os.no_faults (disk commented_mod) _
           "go.mod" "example.com/foo/cmd/tool" commented_mod (tree commented_mod)
           (foo 1) [Comment.mk "// tools of the build" true]
           [Comment.mk "// pinned" true]); by_computation.
Defined.


(** X11: the plain manifest, annotated, and the error of the close. *)
Lemma close_failure_after_commit_witness :
  AddMetaToMod (M := MiniMod.impl)
    (os.closing os.no_faults (Some (New "close go.mod: input/output error")))
    (disk plain_mod) "go.mod" "example.com/foo/cmd/tool"
  = (<["go.mod" :=
         MiniMod.manifest
           ["module tool/bin // Auto generated by https://github.com/bwplotka/gobin. DO NOT EDIT";
            "go 1.14";
            "require example.com/bar v0.1.0 // indirect";
            "require example.com/foo v1.2.3 // cmd/tool"]]> (disk plain_mod),
     Return (Some (New "close go.mod: input/output error"))).
Proof.
  apply (close_failure_after_commit (M := MiniMod.impl) (disk plain_mod) "go.mod"
           "example.com/foo/cmd/tool" plain_mod _ (tree plain_mod)
           (default (tree plain_mod) (annotated (tree plain_mod) "example.com/foo/cmd/tool"))
           []); by_computation.
Defined.

(** X12 with the formatter that refuses. *)
Lemma format_error_reported_witness :
  ∃ err, AddMetaToMod (M := refusing) os.no_faults (disk plain_mod) "go.mod"
           "example.com/foo/cmd/tool"
         = (disk plain_mod, Return (Some err)) ∧
         Cause err = New "format: cannot print".
Proof.
  destruct (format_error_reported (M := refusing) os.no_faults (disk plain_mod) "go.mod"
              "example.com/foo/cmd/tool" plain_mod (tree plain_mod)
              (default (tree plain_mod)
                 (annotated (tree plain_mod) "example.com/foo/cmd/tool"))
              [] (New "format: cannot print"))
    as (err & Hrun & Hcause & _); [by_computation..|].
  by exists err.
Defined.

(** X13 on the manifest whose requirement ends in the two slashes
    alone. *)
Lemma panics_exactly_when_witness :
  (((∃ p, ModHasMeta (M := MiniMod.impl) (disk bare_comment_mod) "go.mod" None = Panic p)
    ↔ File.Module_ (tree bare_comment_mod) = None) ∧
   ((∃ p, ModDirectPackage (M := MiniMod.impl) (disk bare_comment_mod) "go.mod" None
          = Panic p)
    ↔ ∃ r c sr, first_direct (File.Require_ (tree bare_comment_mod)) = Some r ∧
                require_Suffix (tree bare_comment_mod) r = Some (c :: sr) ∧
                String.length (Comment.Token c) < 3)) ∧
  ((∃ p, (annotate bare_comment_mod "example.com/foo").2 = Panic p)
   ↔ File.Module_ (tree bare_comment_mod) = None).
Proof.
  destruct (panics_exactly_when (M := MiniMod.impl) os.no_faults (disk bare_comment_mod)
              "go.mod" "example.com/foo" None bare_comment_mod (tree bare_comment_mod))
    as [Hread Hadd]; [by_computation..|].
  split; [apply Hread|apply Hadd]; by_computation.
Defined.

(** X14: a package of another module, reached by going up. *)
Lemma plain_paths_annotated_witness :
  ∃ m2 newB,
    annotated (tree plain_mod) "example.com/other/tool" = Some m2 ∧
    MiniMod.Format m2 = Ok newB ∧
    annotate plain_mod "example.com/other/tool"
    = (<["go.mod" := newB]> (disk plain_mod), Return None).
Proof.
  apply (plain_paths_annotated (M := MiniMod.impl) (disk plain_mod) "go.mod"
           "example.com/other/tool" plain_mod (tree plain_mod) [] (foo 3));
    [by_computation..|].
  intros m2 _. by eexists.
Defined.
